(** * The hash-bucketing step of the compactor

    A shallow embedding of
    [deltacat/compute/compactor/steps/hash_bucket.py] and the properties
    its specification states about it.

    Python values are modelled by their mathematical counterparts:
    - [int] as [Z], [float] as an IEEE 754 binary64 value, [str] as the
      list of its code points, [bytes] as a list of [Byte.byte];
    - a [pyarrow] table as its row count and the ordered list of its named
      columns, a column as the list of the cells of its type, a null cell
      as [None];
    - a [numpy] object array as a list of options ([None] is the slot that
      was never assigned);
    - an exception as the [Err] branch of a result; the calls to the storage
      collaborator and to the digest function are recorded in a trace. *)

From Stdlib Require Import NArith ZArith Lia Ascii String DecimalString.
From Stdlib.Strings Require Import Byte.
From Stdlib Require Import Floats.SpecFloat.
From stdpp Require Import base list strings sorting.

Local Open Scope nat_scope.

(** ** Bytes *)

Abbreviation bytes := (list byte).

Definition byte_of_N (n : N) : byte :=
  match Byte.of_N (n mod 256)%N with
  | Some b => b
  | None => x00
  end.

(** [k] bytes of [x], most significant first. *)
Fixpoint be_bytes (k : nat) (x : N) : bytes :=
  match k with
  | 0 => []
  | S k' => byte_of_N (N.shiftr x (8 * N.of_nat k')) :: be_bytes k' x
  end.

(** [int.from_bytes(b, "big")] *)
Definition int_from_bytes_big (b : bytes) : N :=
  fold_left (fun acc x => (acc * 256 + Byte.to_N x)%N) b 0%N.

(** [sep.join(parts)] on bytes. *)
Fixpoint bytes_join (sep : bytes) (parts : list bytes) : bytes :=
  match parts with
  | [] => []
  | [p] => p
  | p :: rest => p ++ sep ++ bytes_join sep rest
  end.

(** ** SHA-1 *)

Module SHA1.

Local Open Scope N_scope.

Definition w32 (x : N) : N := x mod 2 ^ 32.
Definition add32 (x y : N) : N := w32 (x + y).
Definition not32 (x : N) : N := N.lxor (w32 x) 0xFFFFFFFF.
Definition rotl (n x : N) : N :=
  w32 (N.lor (N.shiftl x n) (N.shiftr x (32 - n))).

Definition pad (msg : bytes) : bytes :=
  let len := length msg in
  let zeros := ((119 - len mod 64) mod 64)%nat in
  msg ++ [x80] ++ repeat x00 zeros ++ be_bytes 8 (8 * N.of_nat len).

Fixpoint chunks {A} (fuel k : nat) (l : list A) : list (list A) :=
  match fuel with
  | O => []
  | S fuel' =>
      match l with
      | [] => []
      | _ => take k l :: chunks fuel' k (drop k l)
      end
  end.

Fixpoint extend (n : nat) (w : list N) : list N :=
  match n with
  | O => w
  | S n' =>
      let i := length w in
      let g j := nth (i - j)%nat w 0 in
      extend n'
        (w ++ [rotl 1 (N.lxor (N.lxor (g 3%nat) (g 8%nat))
                              (N.lxor (g 14%nat) (g 16%nat)))])
  end.

Definition f (t : nat) (b c d : N) : N :=
  if (t <? 20)%nat then N.lor (N.land b c) (N.land (not32 b) d)
  else if (t <? 40)%nat then N.lxor (N.lxor b c) d
  else if (t <? 60)%nat then
    N.lor (N.lor (N.land b c) (N.land b d)) (N.land c d)
  else N.lxor (N.lxor b c) d.

Definition K (t : nat) : N :=
  if (t <? 20)%nat then 0x5A827999
  else if (t <? 40)%nat then 0x6ED9EBA1
  else if (t <? 60)%nat then 0x8F1BBCDC
  else 0xCA62C1D6.

Definition state : Type := N * N * N * N * N.

Definition init : state :=
  (0x67452301, 0xEFCDAB89, 0x98BADCFE, 0x10325476, 0xC3D2E1F0).

Definition step (st : state) (tw : nat * N) : state :=
  let '(a, b, c, d, e) := st in
  let '(t, w) := tw in
  let temp :=
    add32 (add32 (add32 (add32 (rotl 5 a) (f t b c d)) e) (K t)) w in
  (temp, a, rotl 30 b, c, d).

Definition process_block (h : state) (block : bytes) : state :=
  let w := extend 64 (map int_from_bytes_big (chunks 16 4 block)) in
  let '(a, b, c, d, e) := fold_left step (combine (seq 0 80) w) h in
  let '(h0, h1, h2, h3, h4) := h in
  (add32 h0 a, add32 h1 b, add32 h2 c, add32 h3 d, add32 h4 e).

Definition digest (msg : bytes) : bytes :=
  let padded := pad msg in
  let '(h0, h1, h2, h3, h4) :=
    fold_left process_block (chunks (length padded) 64 padded) init in
  be_bytes 4 h0 ++ be_bytes 4 h1 ++ be_bytes 4 h2 ++ be_bytes 4 h3
    ++ be_bytes 4 h4.

End SHA1.

(** Modelled from the spec: [sha1_digest] of [deltacat.utils.common] is not
    among the sources; the spec names the digest function as SHA-1 over the
    concatenated bytes. *)
Definition sha1_digest (b : bytes) : bytes := SHA1.digest b.

Definition hex_digit (n : N) : ascii :=
  ascii_of_N (if (n <? 10)%N then 48 + n else 87 + n)%N.

Definition hexlify (b : bytes) : string :=
  fold_right
    (fun x acc =>
       String (hex_digit (Byte.to_N x / 16)%N)
         (String (hex_digit (Byte.to_N x mod 16)%N) acc))
    EmptyString b.

(** ** Python strings *)

(** A [str] is the sequence of its code points. *)
Abbreviation pystr := (list N).

Definition pystr_of_string (s : string) : pystr :=
  map N_of_ascii (list_ascii_of_string s).

(** [str(z)] for an integer: its decimal numeral. *)
Definition str_int (z : Z) : pystr :=
  pystr_of_string (NilZero.string_of_int (Z.to_int z)).

(** [str(b)] for a boolean. *)
Definition str_bool (b : bool) : pystr :=
  pystr_of_string (if b then "True" else "False").

(** [repr] of one byte inside a bytes literal delimited by [quote]. *)
Definition repr_byte (quote : N) (c : N) : pystr :=
  if ((c =? quote) || (c =? 92))%N then [92; c]%N
  else if (c =? 9)%N then [92; 116]%N
  else if (c =? 10)%N then [92; 110]%N
  else if (c =? 13)%N then [92; 114]%N
  else if ((c <? 32) || (127 <=? c))%N then
    [92; 120; N_of_ascii (hex_digit (c / 16)); N_of_ascii (hex_digit (c mod 16))]%N
  else [c].

(** [str(b)] for a bytes object, which is its [repr]. *)
Definition str_bytes (b : bytes) : pystr :=
  let cs := map Byte.to_N b in
  let has c := existsb (N.eqb c) cs in
  let quote := (if has 39 && negb (has 34) then 34 else 39)%N in
  [98%N; quote] ++ concat (map (repr_byte quote) cs) ++ [quote].

(** ** Floats *)

Module Float64.

Local Open Scope bool_scope.
Local Open Scope Z_scope.

(** A [float] of Python and a [numpy.float64]: an IEEE 754 binary64
    value. *)
Definition float64 : Type := spec_float.

Definition nan : float64 := S754_nan.

(** [float(z)]: the nearest binary64 value, ties to even. *)
Definition of_int (z : Z) : float64 := binary_normalize 53 1024 z 0 false.

(** The mantissa and the exponent of the binary64 value [m * 2^e], the
    mantissa on 53 bits unless the value is subnormal. *)
Definition normalise (m : positive) (e : Z) : Z * Z :=
  let shift := Z.max 0 (Z.min (53 - Z.log2 (Zpos m) - 1) (e + 1074)) in
  (Zpos m * 2 ^ shift, e - shift).

(** The comparison of [c * 10^q] with [x * 2^e]. *)
Definition compare_scaled (c q x e : Z) : comparison :=
  (c * 10 ^ Z.max q 0 * 2 ^ Z.max (- e) 0
   ?= x * 2 ^ Z.max e 0 * 10 ^ Z.max (- q) 0).

(** The exponent of the first decimal digit of [x * 2^e]: the greatest [k]
    with [10^k <= x * 2^e], searched around its estimate. *)
Definition decimal_exponent (x e : Z) : Z :=
  let k0 := (Z.log2 x + e) * 1233 / 4096 in
  let le k := match compare_scaled 1 k x e with Gt => false | _ => true end in
  if le (k0 + 2) then k0 + 2
  else if le (k0 + 1) then k0 + 1
  else if le k0 then k0
  else k0 - 1.

(** The shortest decimal [c * 10^q] that reads back as the binary64 value
    [m * 2^e], and among the shortest the nearest one: decimals of [n]
    digits are tried for [n = 1, 2, ...]; a decimal reads back as the value
    when it lies between the midpoints to the two neighbouring floats (the
    midpoints included when the mantissa is even). *)
Fixpoint shortest (fuel : nat) (m e k n : Z) : Z * Z :=
  let q := k - n + 1 in
  let below := if (m =? 2 ^ 52) && (-1074 <? e) then 1 else 2 in
  let inside c :=
    match compare_scaled c q (4 * m - below) (e - 2),
          compare_scaled c q (4 * m + 2) (e - 2) with
    | Gt, Lt => true
    | Eq, Lt | Gt, Eq => Z.even m
    | _, _ => false
    end in
  let c_lo := (m * 2 ^ Z.max e 0 * 10 ^ Z.max (- q) 0)
              / (10 ^ Z.max q 0 * 2 ^ Z.max (- e) 0) in
  let c_hi := c_lo + 1 in
  let nearest :=
    match compare_scaled (c_lo + c_hi) q (2 * m) e with
    | Gt => c_lo
    | Lt => c_hi
    | Eq => if Z.even c_lo then c_lo else c_hi
    end in
  match fuel with
  | O => (nearest, q)
  | S fuel' =>
      match inside c_lo, inside c_hi with
      | true, true => (nearest, q)
      | true, false => (c_lo, q)
      | false, true => (c_hi, q)
      | false, false => shortest fuel' m e k (n + 1)
      end
  end.

(** The same decimal without the zeros that end its digits. *)
Fixpoint strip_zeros (fuel : nat) (c q : Z) : Z * Z :=
  match fuel with
  | O => (c, q)
  | S fuel' => if (c mod 10 =? 0) && (0 <? c)
               then strip_zeros fuel' (c / 10) (q + 1) else (c, q)
  end.

Definition digits_of (z : Z) : string := NilZero.string_of_int (Z.to_int z).

Definition zeros (n : Z) : string :=
  string_of_list_ascii (repeat "0"%char (Z.to_nat n)).

(** [repr] of the positive value [m * 2^e]: the shortest digits, written
    with an exponent when the decimal point would lie more than 16 places
    to the right of the first digit or more than 3 to its left. *)
Definition repr_positive (m : positive) (e : Z) : string :=
  let '(m', e') := normalise m e in
  let k := decimal_exponent m' e' in
  let '(c0, q0) := shortest 17 m' e' k 1 in
  let '(c, q) := strip_zeros 20 c0 q0 in
  let ds := digits_of c in
  let n := Z.of_nat (String.length ds) in
  let decpt := q + n in
  let ex := decpt - 1 in
  let ex_sign := if ex <? 0 then "-"%string else "+"%string in
  let ex_pad := if Z.abs ex <? 10 then "0"%string else EmptyString in
  let head : string := substring 0 1 ds in
  let tail : string := substring 1 (Z.to_nat (n - 1)) ds in
  let whole : string := substring 0 (Z.to_nat decpt) ds in
  let frac : string := substring (Z.to_nat decpt) (Z.to_nat (n - decpt)) ds in
  let mantissa := if n =? 1 then ds else (head ++ "." ++ tail)%string in
  if (decpt <? -3) || (16 <? decpt) then
    (mantissa ++ "e" ++ ex_sign ++ ex_pad ++ digits_of (Z.abs ex))%string
  else if decpt <=? 0 then ("0." ++ zeros (- decpt) ++ ds)%string
  else if n <=? decpt then (ds ++ zeros (decpt - n) ++ ".0")%string
  else (whole ++ "." ++ frac)%string.

(** [repr(x)] of a float. *)
Definition repr (x : float64) : string :=
  match x with
  | S754_nan => "nan"
  | S754_infinity s => if s then "-inf" else "inf"
  | S754_zero s => if s then "-0.0" else "0.0"
  | S754_finite s m e =>
      ((if s then "-" else EmptyString) ++ repr_positive m e)%string
  end.

End Float64.

(** [str(x)] for a float, which is its [repr]. *)
Definition str_float (x : Float64.float64) : pystr :=
  pystr_of_string (Float64.repr x).

(** ** Exceptions and results *)

(** The exceptions of the step.  Where the specification has a name for a
    failure, the constructor carries that name and the comment gives the
    Python exception behind it. *)
Inductive error : Type :=
| InvalidArgument          (* the specification's; nothing in the step raises it *)
| InvalidSchema            (* KeyError: a column name the table does not have *)
| MissingPrimaryKeyValue   (* the specification's; nothing in the step raises it *)
| IntegrityError           (* AssertionError of the table/annotation check *)
| IndexError               (* a list, array or row index out of range *)
| ValueError               (* negative array dimension; ArrowInvalid *)
| TypeError                (* an unhashable object in a set or as a key *)
| UnicodeEncodeError       (* a code point with no UTF-8 encoding *)
| StorageError (code : nat). (* whatever a collaborator raises *)

Inductive result (A : Type) : Type :=
| Ok (a : A)
| Err (e : error).
Arguments Ok {A} a.
Arguments Err {A} e.

Definition result_bind {A B} (r : result A) (k : A -> result B) : result B :=
  match r with
  | Ok a => k a
  | Err e => Err e
  end.

Fixpoint result_mapM {A B} (f : A -> result B) (l : list A) : result (list B) :=
  match l with
  | [] => Ok []
  | x :: l' =>
      result_bind (f x) (fun y =>
      result_bind (result_mapM f l') (fun ys => Ok (y :: ys)))
  end.

(** ** UTF-8 *)

(** [bytes(chr(c), "utf-8")]; the surrogates have no encoding. *)
Definition utf8_encode_char (c : N) : result bytes :=
  (if c <? 0x80 then Ok [byte_of_N c]
   else if c <? 0x800 then
     Ok [byte_of_N (N.lor 0xC0 (N.shiftr c 6));
         byte_of_N (N.lor 0x80 (N.land c 0x3F))]
   else if (0xD800 <=? c) && (c <=? 0xDFFF) then Err UnicodeEncodeError
   else if c <? 0x10000 then
     Ok [byte_of_N (N.lor 0xE0 (N.shiftr c 12));
         byte_of_N (N.lor 0x80 (N.land (N.shiftr c 6) 0x3F));
         byte_of_N (N.lor 0x80 (N.land c 0x3F))]
   else if c <? 0x110000 then
     Ok [byte_of_N (N.lor 0xF0 (N.shiftr c 18));
         byte_of_N (N.lor 0x80 (N.land (N.shiftr c 12) 0x3F));
         byte_of_N (N.lor 0x80 (N.land (N.shiftr c 6) 0x3F));
         byte_of_N (N.lor 0x80 (N.land c 0x3F))]
   else Err UnicodeEncodeError)%N.

(** [bytes(s, "utf-8")] *)
Definition utf8_encode (s : pystr) : result bytes :=
  result_bind (result_mapM utf8_encode_char s) (fun bs => Ok (concat bs)).

(** ** Values and tables *)

(** The elements of the arrays that [to_numpy] returns: [numpy] integers,
    floats and booleans, and the Python objects of an object array.  The
    string of a [numpy] integer, float or boolean is that of the Python
    [int], [float] or [bool] of the same value. *)
Inductive value : Type :=
| VInt (z : Z)
| VFloat (x : Float64.float64)
| VStr (s : pystr)
| VBool (b : bool)
| VBytes (b : bytes)
| VNone.

(** Python's [str(v)]. *)
Definition str (v : value) : pystr :=
  match v with
  | VInt z => str_int z
  | VFloat x => str_float x
  | VStr s => s
  | VBool b => str_bool b
  | VBytes b => str_bytes b
  | VNone => pystr_of_string "None"
  end.

(** A column of a [pyarrow] table, for the column types [int64], [double],
    [string], [bool] and [binary]: the cells in row order; [None] is a
    null. *)
Inductive column : Type :=
| Int64Column (cells : list (option Z))
| DoubleColumn (cells : list (option Float64.float64))
| StringColumn (cells : list (option pystr))
| BoolColumn (cells : list (option bool))
| BinaryColumn (cells : list (option bytes)).

(** The cells of a column as Python objects ([cell.as_py()]). *)
Abbreviation cell := (option value).

Definition column_cells (c : column) : list cell :=
  match c with
  | Int64Column cells => map (option_map VInt) cells
  | DoubleColumn cells => map (option_map VFloat) cells
  | StringColumn cells => map (option_map VStr) cells
  | BoolColumn cells => map (option_map VBool) cells
  | BinaryColumn cells => map (option_map VBytes) cells
  end.

Definition column_length (c : column) : nat := length (column_cells c).

(** A [pyarrow.Table]: its row count and its columns in order, each with
    its name.  The row count is a field of its own: a table keeps it when
    its last column is removed. *)
Record Table : Type := mkTable {
  num_rows : nat;
  columns : list (string * column)
}.

(** [pyarrow.table(columns)]: the row count is that of the first
    column. *)
Definition pa_table (cols : list (string * column)) : Table :=
  mkTable (match cols with
           | [] => 0
           | (_, c) :: _ => column_length c
           end) cols.

(** The columns of a table all have the table's row count; a value of
    type [Table] is a table of [pyarrow] when it satisfies this check. *)
Definition equal_row_counts (t : Table) : bool :=
  forallb (fun nc : string * column => column_length (snd nc) =? num_rows t)
    (columns t).

(** [table[name]]: the column of that name; a name that no column or more
    than one column has is a [KeyError]. *)
Definition table_getitem (t : Table) (name : string) : result column :=
  match filter (fun nc => fst nc = name) (columns t) with
  | [(_, c)] => Ok c
  | _ => Err InvalidSchema
  end.

(** Whether a cell is a null. *)
Definition is_null {A} (x : option A) : bool :=
  match x with
  | None => true
  | Some _ => false
  end.

(** [column.to_numpy()] of a column of a table (a chunked array): the
    conversion that [pyarrow] also uses for [pandas].  It rejects no null:
    a null of a [string], [bool] or [binary] column becomes [None] in an
    object array, a null of a [double] column becomes NaN, and an [int64]
    column with a null becomes an array of floats, its integers converted
    and its nulls NaN. *)
Definition to_numpy (c : column) : list value :=
  match c with
  | Int64Column cells =>
      if existsb is_null cells
      then map (fun x => VFloat (from_option Float64.of_int Float64.nan x))
             cells
      else omap (option_map VInt) cells
  | DoubleColumn cells => map (fun x => VFloat (default Float64.nan x)) cells
  | StringColumn cells => map (from_option VStr VNone) cells
  | BoolColumn cells => map (from_option VBool VNone) cells
  | BinaryColumn cells => map (from_option VBytes VNone) cells
  end.

(** [table.append_column(name, col)]: the new column comes last and must
    have the table's row count ([ArrowInvalid] otherwise). *)
Definition append_column (t : Table) (name : string) (c : column)
  : result Table :=
  if column_length c =? num_rows t
  then Ok (mkTable (num_rows t) (columns t ++ [(name, c)]))
  else Err ValueError.

(** [schema.get_field_index(name)]: the position of the column of that
    name; [None] (Python's [-1]) when no column or more than one has it. *)
Definition get_field_index (t : Table) (name : string) : option nat :=
  match filter (fun i => fst <$> columns t !! i = Some name)
          (seq 0 (length (columns t))) with
  | [i] => Some i
  | _ => None
  end.

(** [table.remove_column(i)]: the row count stays. *)
Definition remove_column (t : Table) (i : nat) : result Table :=
  if i <? length (columns t)
  then Ok (mkTable (num_rows t) (delete i (columns t)))
  else Err ValueError.

(** Removals one after the other, in the order of [indices]. *)
Definition remove_columns (t : Table) (indices : list nat) : result Table :=
  fold_left (fun acc i => result_bind acc (fun t' => remove_column t' i))
    indices (Ok t).

(** [table.drop(names)]: the position of each name is looked up in the
    table as it is given (a name that is not the name of exactly one column
    is a [KeyError]); the positions are sorted and the columns at these
    positions are removed one after the other, the last position first.  A
    name listed twice gives its position twice. *)
Definition table_drop (t : Table) (names : list string) : result Table :=
  result_bind
    (result_mapM (fun name => match get_field_index t name with
                              | Some i => Ok i
                              | None => Err InvalidSchema
                              end) names)
    (fun indices => remove_columns t (reverse (merge_sort le indices))).

(** [table.take(indices)]: the rows at the given positions, in the order
    of [indices]; a position that is no row is an [IndexError].  The row
    count of the result is that of its first column. *)
Definition cells_take {A} (cells : list (option A)) (indices : list nat)
  : result (list (option A)) :=
  result_mapM (fun i => match cells !! i with
                        | Some x => Ok x
                        | None => Err IndexError
                        end) indices.

Definition column_take (c : column) (indices : list nat) : result column :=
  match c with
  | Int64Column cells =>
      result_bind (cells_take cells indices) (fun r => Ok (Int64Column r))
  | DoubleColumn cells =>
      result_bind (cells_take cells indices) (fun r => Ok (DoubleColumn r))
  | StringColumn cells =>
      result_bind (cells_take cells indices) (fun r => Ok (StringColumn r))
  | BoolColumn cells =>
      result_bind (cells_take cells indices) (fun r => Ok (BoolColumn r))
  | BinaryColumn cells =>
      result_bind (cells_take cells indices) (fun r => Ok (BinaryColumn r))
  end.

Definition table_take (t : Table) (indices : list nat) : result Table :=
  result_bind
    (result_mapM (fun nc : string * column =>
                    result_bind (column_take (snd nc) indices)
                                (fun c => Ok (fst nc, c))) (columns t))
    (fun cols => Ok (pa_table cols)).

(** ** The data model of the step *)

Inductive DeltaType : Type := INSERT | UPDATE | DELETE.

(** Modelled from the spec: the module [delta_manifest_annotated] is not
    among the sources; an annotation of a manifest entry carries the stream
    position, the file index and the delta type of the entry. *)
Record Annotation : Type := mkAnnotation {
  annotation_stream_position : Z;
  annotation_file_index : Z;
  annotation_delta_type : DeltaType
}.

(** Modelled from the spec: an annotated delta manifest is the entries to
    download (here an identifier, which only the storage reads) and their
    annotations, which [dma.get_annotations] returns. *)
Record AnnotatedDeltaManifest : Type := mkManifest {
  manifest_id : nat;
  get_annotations : list Annotation
}.

(** Modelled from the spec: the module [delta_file_envelope] is not among
    the sources; an envelope is [{stream_position, file_index, delta_type,
    table}]; [envelope_of] (the module's [of]) builds one and the getters
    read its fields. *)
Record DeltaFileEnvelope : Type := envelope_of {
  get_stream_position : Z;
  get_file_index : Z;
  get_delta_type : DeltaType;
  get_table : Table
}.

(** ** Python objects *)

(** The objects the step builds for its assertion and for the keyword
    arguments of the download. *)
#[warnings="-register-all"] Inductive pyobj : Type :=
| PyBool (b : bool)
| PyStr (s : pystr)
| PyTuple (items : list pyobj)
| PyList (items : list pyobj)
| PySet (elements : list pyobj)
| PyDict (items : list (pyobj * pyobj))
| PyReadOptions (column_names : pyobj)        (* pyarrow.csv.ReadOptions *)
| PyConvertOptions (include_columns : pyobj). (* pyarrow.csv.ConvertOptions *)

(** The truth value of an object. *)
Definition truthy (o : pyobj) : bool :=
  match o with
  | PyBool b => b
  | PyStr s => negb (bool_decide (s = []))
  | PyTuple items | PyList items | PySet items =>
      negb (bool_decide (items = []))
  | PyDict items => negb (bool_decide (items = []))
  | PyReadOptions _ | PyConvertOptions _ => true
  end.

(** Whether [hash(o)] succeeds.  Lists, sets and dicts are unhashable, and
    so are the two option classes of [pyarrow.csv], which define equality
    and no hash. *)
Fixpoint hashable (o : pyobj) : bool :=
  match o with
  | PyBool _ | PyStr _ => true
  | PyTuple items => forallb hashable items
  | PyList _ | PySet _ | PyDict _ => false
  | PyReadOptions _ | PyConvertOptions _ => false
  end.

(** [a == b] for two hashable objects. *)
Fixpoint key_eqb (a b : pyobj) : bool :=
  let fix all_eqb (xs ys : list pyobj) : bool :=
    match xs, ys with
    | [], [] => true
    | x :: xs', y :: ys' => key_eqb x y && all_eqb xs' ys'
    | _, _ => false
    end in
  match a, b with
  | PyBool x, PyBool y => bool_decide (x = y)
  | PyStr x, PyStr y => bool_decide (x = y)
  | PyTuple xs, PyTuple ys => all_eqb xs ys
  | _, _ => false
  end.

(** A list of names as a Python list of strings. *)
Definition py_names (names : list string) : pyobj :=
  PyList (map (fun n => PyStr (pystr_of_string n)) names).

(** ** Effects *)

(** What the step does that an observer can see: a download through the
    storage collaborator, and a digest computation. *)
Inductive event : Type :=
| EvDownload (m : AnnotatedDeltaManifest) (file_reader_kwargs : pyobj)
| EvDigest (input : bytes).

(** A computation: the events it has performed, and its result or the
    exception that ended it. *)
Definition M (A : Type) : Type := list event * result A.

Definition ret {A} (a : A) : M A := ([], Ok a).
Definition raise {A} (e : error) : M A := ([], Err e).
Definition emit (ev : event) : M unit := ([ev], Ok tt).
Definition lift {A} (r : result A) : M A := ([], r).

Definition bind {A B} (m : M A) (k : A -> M B) : M B :=
  match m with
  | (tr, Ok a) => let (tr', r) := k a in (tr ++ tr', r)
  | (tr, Err e) => (tr, Err e)
  end.

Notation "x <- m ;; k" := (bind m (fun x => k))
  (at level 100, m at next level, right associativity).
Notation "m ;; k" := (bind m (fun _ => k))
  (at level 100, right associativity).

(** [for x in xs: s = body x s] *)
Fixpoint for_each {A S} (xs : list A) (body : A -> S -> M S) (s : S) : M S :=
  match xs with
  | [] => ret s
  | x :: xs' => s' <- body x s ;; for_each xs' body s'
  end.

(** [range(n)] *)
Definition range (n : nat) : list nat := seq 0 n.

(** [l[i]] *)
Definition getitem {A} (l : list A) (i : nat) : M A :=
  match l !! i with
  | Some x => ret x
  | None => raise IndexError
  end.

(** [numpy.empty([n], dtype="object")]: [n] unassigned slots. *)
Definition np_empty {A} (n : Z) : M (list (option A)) :=
  if (n <? 0)%Z then raise ValueError else ret (replicate (Z.to_nat n) None).

(** [arr[i] = x] *)
Definition setitem {A} (arr : list (option A)) (i : nat) (x : A) : M (list (option A)) :=
  if i <? length arr then ret (<[i := Some x]> arr) else raise IndexError.

(** [assert cond] *)
Definition py_assert (cond : bool) : M unit :=
  if cond then ret tt else raise IntegrityError.


(** [{x1, ..., xn}]: every element is hashed; equal elements are kept
    once. *)
Definition set_display (elements : list pyobj) : M pyobj :=
  if forallb hashable elements
  then ret (PySet (fold_left (fun acc x =>
                                if existsb (key_eqb x) acc then acc
                                else acc ++ [x]) elements []))
  else raise TypeError.

(** [{k1: v1, ..., kn: vn}]: every key is hashed; of two items of equal
    keys the first gives the place and the second the value. *)
Definition dict_display (items : list (pyobj * pyobj)) : M pyobj :=
  if forallb (fun kv => hashable (fst kv)) items
  then ret (PyDict (fold_left (fun acc kv =>
              if existsb (fun kv' => key_eqb (fst kv') (fst kv)) acc
              then map (fun kv' => if key_eqb (fst kv') (fst kv)
                                   then (fst kv', snd kv) else kv') acc
              else acc ++ [kv]) items []))
  else raise TypeError.

(** ** The digest function *)

Definition _PK_BYTES_DELIMITER : bytes := list_byte_of_string "L6kl7u5f".

(** [hash_pk_bytes_generator]: the digests it yields, collected in the
    order in which they are yielded. *)
Definition hash_pk_bytes_generator (all_column_fields : list (list value))
  : M (list bytes) :=
  first <- getitem all_column_fields 0 ;;
  for_each (range (length first)) (fun field_index yielded =>
    bytes_to_join <-
      for_each all_column_fields (fun column_fields bytes_to_join =>
        v <- getitem column_fields field_index ;;
        b <- lift (utf8_encode (str v)) ;;
        ret (bytes_to_join ++ [b])) [] ;;
    let joined := bytes_join _PK_BYTES_DELIMITER bytes_to_join in
    emit (EvDigest joined) ;;
    ret (yielded ++ [sha1_digest joined])) [].

(** ** The storage collaborator *)

Record Storage : Type := mkStorage {
  download_delta_manifest :
    AnnotatedDeltaManifest -> pyobj -> result (list Table)
}.

(** Modelled from the spec: the module [sort_key] is not among the
    sources; a sort key is a name and a direction, and [sk.get_key_name]
    gives the name. *)
Definition get_key_name (key : string * string) : string := fst key.

(** The content types for which the reader gives keyword arguments. *)
Inductive ContentType : Type := CSV | PARQUET | FEATHER.

Section Step.

(** The names of the two system columns ([system_columns] is not among the
    sources). *)
Variable pk_hash_column_name : string.
Variable ordered_record_idx_column_name : string.

(** The key under which the keyword arguments of a content type are
    handed to the storage ([deltacat.types.media] is not among the
    sources). *)
Variable CONTENT_TYPE_TO_USER_KWARGS_KEY : ContentType -> string.

(** The bucket-index grouping collaborator
    ([primary_key_index.group_record_indices_by_hash_bucket]). *)
Variable group_record_indices_by_hash_bucket :
  Table -> Z -> result (list (option (list nat))).

(** The group assembler ([primary_key_index.group_hash_bucket_indices])
    and what it returns. *)
Variable GroupResult : Type.
Variable group_hash_bucket_indices :
  option (list (option (list DeltaFileEnvelope))) -> Z -> Z -> M GroupResult.

(** Modelled from the spec: [sc.append_pk_hash_column] is not among the
    sources; it appends the digests as a new column of the table. *)
Definition append_pk_hash_column (table : Table) (pk_hashes : M (list bytes))
  : M Table :=
  digests <- pk_hashes ;;
  lift (append_column table pk_hash_column_name
          (BinaryColumn (map Some digests))).

(** Modelled from the spec: [sc.append_record_idx_col] is not among the
    sources; it appends a column recording each row's original position. *)
Definition append_record_idx_col (table : Table) (indices : list nat)
  : M Table :=
  lift (append_column table ordered_record_idx_column_name
          (Int64Column (map (fun i => Some (Z.of_nat i)) indices))).

(** The record positions a bucketed table carries in its last column. *)
Definition record_positions (t : Table) : list cell :=
  match last (columns t) with
  | Some (_, c) => column_cells c
  | None => []
  end.

Definition group_by_pk_hash_bucket
  (table : Table) (num_buckets : Z) (primary_keys : list string)
  : M (list (option Table)) :=
  (* generate the primary key digest column *)
  all_pk_column_fields <-
    for_each primary_keys (fun pk_name all_pk_column_fields =>
      col <- lift (table_getitem table pk_name) ;;
      let column_fields := to_numpy col in
      ret (all_pk_column_fields ++ [column_fields])) [] ;;
  let hash_column_generator := hash_pk_bytes_generator all_pk_column_fields in
  table <- append_pk_hash_column table hash_column_generator ;;
  (* drop primary key columns to free up memory *)
  table <- lift (table_drop table primary_keys) ;;
  (* group hash bucket record indices *)
  hash_bucket_to_indices <-
    lift (group_record_indices_by_hash_bucket table num_buckets) ;;
  (* generate the ordered record number column *)
  hash_bucket_to_table <- np_empty num_buckets ;;
  for_each (range (length hash_bucket_to_indices))
    (fun hash_bucket hash_bucket_to_table =>
       indices <- getitem hash_bucket_to_indices hash_bucket ;;
       match indices with
       | Some (i :: rest) =>
           taken <- lift (table_take table (i :: rest)) ;;
           bucketed <- append_record_idx_col taken (i :: rest) ;;
           setitem hash_bucket_to_table hash_bucket bucketed
       | _ => ret hash_bucket_to_table
       end)
    hash_bucket_to_table.

(** The keyword arguments of the download, a dict with one entry per
    content type.  The entry for CSV is written as a set display of a
    [ReadOptions] and a [ConvertOptions] (lines 125-128); the entries for
    Parquet and Feather are dicts that name the columns to read. *)
Definition file_reader_kwargs (column_names columns_to_read : list string)
  : M pyobj :=
  csv <- set_display [PyReadOptions (py_names column_names);
                      PyConvertOptions (py_names columns_to_read)] ;;
  parquet <- dict_display
               [(PyStr (pystr_of_string "columns"), py_names columns_to_read)] ;;
  feather <- dict_display
               [(PyStr (pystr_of_string "columns"), py_names columns_to_read)] ;;
  dict_display
    [(PyStr (pystr_of_string (CONTENT_TYPE_TO_USER_KWARGS_KEY CSV)), csv);
     (PyStr (pystr_of_string (CONTENT_TYPE_TO_USER_KWARGS_KEY PARQUET)),
      parquet);
     (PyStr (pystr_of_string (CONTENT_TYPE_TO_USER_KWARGS_KEY FEATHER)),
      feather)].

(** The message of the assertion of [read_delta_file_envelopes]. *)
Definition length_mismatch_message (ntables nannotations : nat) : pystr :=
  pystr_of_string
    "Unexpected Error: Length of downloaded delta manifest tables ("
  ++ str_int (Z.of_nat ntables)
  ++ pystr_of_string
    ") doesn't match the length of delta manifest annotations ("
  ++ str_int (Z.of_nat nannotations)
  ++ pystr_of_string ").".

(** The assertion of lines 138-141: the asserted object is the pair of
    the condition and the message. *)
Definition assert_lengths_match
  (tables : list Table) (annotations : list Annotation) : M unit :=
  py_assert (truthy (PyTuple
    [PyBool (length tables =? length annotations);
     PyStr (length_mismatch_message (length tables) (length annotations))])).

Definition read_delta_file_envelopes
  (annotated_delta_manifests : list AnnotatedDeltaManifest)
  (column_names primary_keys sort_key_names : list string)
  (deltacat_storage : Storage)
  : M (option (list DeltaFileEnvelope)) :=
  let columns_to_read := primary_keys ++ sort_key_names in
  tables_and_annotations <-
    for_each annotated_delta_manifests
      (fun annotated_delta_manifest tables_and_annotations =>
         (* the arguments of the call are evaluated before the call *)
         kwargs <- file_reader_kwargs column_names columns_to_read ;;
         emit (EvDownload annotated_delta_manifest kwargs) ;;
         tables <- lift (download_delta_manifest deltacat_storage
                           annotated_delta_manifest kwargs) ;;
         let annotations := get_annotations annotated_delta_manifest in
         assert_lengths_match tables annotations ;;
         ret (tables_and_annotations ++ [(tables, annotations)])) [] ;;
  match tables_and_annotations with
  | [] => ret None
  | _ =>
      delta_file_envelopes <-
        for_each tables_and_annotations (fun ta delta_file_envelopes =>
          let '(tables, annotations) := ta in
          for_each (range (length tables)) (fun i delta_file_envelopes =>
            a1 <- getitem annotations i ;;
            a2 <- getitem annotations i ;;
            a3 <- getitem annotations i ;;
            t <- getitem tables i ;;
            let delta_file :=
              envelope_of (annotation_stream_position a1)
                          (annotation_file_index a2)
                          (annotation_delta_type a3) t in
            ret (delta_file_envelopes ++ [delta_file]))
          delta_file_envelopes) [] ;;
      ret (Some delta_file_envelopes)
  end.

(** The truth value of a slot of the partitioner's array: [None] is
    false, a table is true when it has rows. *)
Definition nonempty_table (slot : option Table) : option Table :=
  match slot with
  | Some t => if num_rows t =? 0 then None else Some t
  | None => None
  end.

Definition group_file_records_by_pk_hash_bucket
  (annotated_delta_manifests : list AnnotatedDeltaManifest)
  (num_hash_buckets : Z)
  (column_names primary_keys sort_key_names : list string)
  (deltacat_storage : Storage)
  : M (option (list (option (list DeltaFileEnvelope)))) :=
  (* read input parquet s3 objects into a list of delta file envelopes *)
  delta_file_envelopes <-
    read_delta_file_envelopes annotated_delta_manifests column_names
      primary_keys sort_key_names deltacat_storage ;;
  match delta_file_envelopes with
  | None => ret None
  | Some delta_file_envelopes =>
      (* group the data by primary key hash value *)
      hb_to_delta_file_envelopes <- np_empty num_hash_buckets ;;
      hb_to_delta_file_envelopes <-
        for_each delta_file_envelopes (fun dfe hb_to_delta_file_envelopes =>
          hash_bucket_to_table <-
            group_by_pk_hash_bucket (get_table dfe) num_hash_buckets
              primary_keys ;;
          for_each (range (length hash_bucket_to_table))
            (fun hash_bucket hb_to_delta_file_envelopes =>
               slot <- getitem hash_bucket_to_table hash_bucket ;;
               match nonempty_table slot with
               | Some table =>
                   current <- getitem hb_to_delta_file_envelopes hash_bucket ;;
                   setitem hb_to_delta_file_envelopes hash_bucket
                     (default [] current ++
                        [envelope_of (get_stream_position dfe)
                                     (get_file_index dfe)
                                     (get_delta_type dfe) table])
               | None => ret hb_to_delta_file_envelopes
               end)
            hb_to_delta_file_envelopes)
          hb_to_delta_file_envelopes ;;
      ret (Some hb_to_delta_file_envelopes)
  end.

Definition hash_bucket
  (annotated_delta_manifests : list AnnotatedDeltaManifest)
  (column_names primary_keys : list string)
  (sort_keys : list (string * string))
  (num_buckets num_groups : Z)
  (deltacat_storage : Storage)
  : M GroupResult :=
  let sort_key_names := map get_key_name sort_keys in
  delta_file_envelope_groups <-
    group_file_records_by_pk_hash_bucket annotated_delta_manifests
      num_buckets column_names primary_keys sort_key_names deltacat_storage ;;
  group_hash_bucket_indices delta_file_envelope_groups num_buckets num_groups.

End Step.

(** ** The bucket-index grouping collaborator, from its contract *)
Module primary_key_index.

(** Modelled from the spec: the bucket of a digest is the digest, read as
    an integer, modulo the number of buckets. *)
Definition pk_digest_to_hash_bucket_index (digest : bytes) (num_buckets : Z) : Z :=
  (Z.of_N (int_from_bytes_big digest) mod num_buckets)%Z.

(** The digests the digest column holds. *)
Definition column_digests (c : column) : result (list bytes) :=
  match c with
  | BinaryColumn cells =>
      result_mapM (fun x : option bytes =>
                     match x with
                     | Some d => Ok d
                     | None => Err ValueError
                     end) cells
  | _ => Err ValueError
  end.

(** Modelled from the spec: [group_record_indices_by_hash_bucket] is not
    among the sources; for each bucket in [[0, num_buckets)] it returns the
    row positions whose digest maps to that bucket, in row order. *)
Definition group_record_indices_by_hash_bucket
  (pk_hash_column_name : string) (table : Table) (num_buckets : Z)
  : result (list (option (list nat))) :=
  result_bind (table_getitem table pk_hash_column_name) (fun col =>
  result_bind (column_digests col) (fun digests =>
  Ok (map (fun b =>
             Some (filter (fun i =>
                     (fun d => pk_digest_to_hash_bucket_index d num_buckets)
                       <$> digests !! i = Some (Z.of_nat b))
                   (seq 0 (length digests))))
          (seq 0 (Z.to_nat num_buckets))))).

End primary_key_index.

(** ** The digest function, as the specification words it *)

(** The per-column byte strings of a row, concatenated with the fixed
    delimiter between them. *)
Definition delimited (parts : list bytes) : bytes :=
  match parts with
  | [] => []
  | p :: rest =>
      p ++ flat_map (fun q => list_byte_of_string "L6kl7u5f" ++ q) rest
  end.

(** The digest of one row of primary-key values: the string of each value,
    encoded as UTF-8, the encodings concatenated with the delimiter, through
    SHA-1. *)
Definition row_digest (row : list value) : M bytes :=
  encoded <- lift (result_mapM (fun v => utf8_encode (str v)) row) ;;
  emit (EvDigest (delimited encoded)) ;;
  ret (sha1_digest (delimited encoded)).

(** The rows of a list of columns of equal length. *)
Fixpoint rows_of (cols : list (list value)) : list (list value) :=
  match cols with
  | [] => []
  | [c] => map (fun v => [v]) c
  | c :: cs => zip_with cons c (rows_of cs)
  end.

(** [[g x for x in xs]] for an effectful [g]. *)
Fixpoint mapM_M {A B} (g : A -> M B) (xs : list A) : M (list B) :=
  match xs with
  | [] => ret []
  | x :: xs' => y <- g x ;; ys <- mapM_M g xs' ;; ret (y :: ys)
  end.

(** What the inner loop and the join of [hash_pk_bytes_generator] compute
    for one row. *)
Definition joined_row_digest (row : list value) : M bytes :=
  encoded <- lift (result_mapM (fun v => utf8_encode (str v)) row) ;;
  let joined := bytes_join _PK_BYTES_DELIMITER encoded in
  emit (EvDigest joined) ;;
  ret (sha1_digest joined).

(** ** Whether a table has a column *)

(** [table[name]] succeeds. *)
Definition has_column (t : Table) (name : string) : bool :=
  match table_getitem t name with
  | Ok _ => true
  | Err _ => false
  end.

(** ** Sample inputs *)

Module Sample.

Definition s (x : string) : value := VStr (pystr_of_string x).
Definition text (x : string) : option pystr := Some (pystr_of_string x).

Definition pk_hash : string := "_pk_hash".
Definition record_idx : string := "_ordered_record_idx".

Definition kwargs_key (ct : ContentType) : string :=
  match ct with
  | CSV => "csv"
  | PARQUET => "parquet"
  | FEATHER => "feather"
  end.

Definition grouping : Table -> Z -> result (list (option (list nat))) :=
  primary_key_index.group_record_indices_by_hash_bucket pk_hash.

(** A group assembler that places nothing. *)
Definition assembler
  (groups : option (list (option (list DeltaFileEnvelope)))) (b g : Z) : M unit :=
  ret tt.

Definition table_a : Table :=
  pa_table [("pk"%string, StringColumn [text "a"; text "b"; text "a"]);
            ("sk"%string, Int64Column [Some 1; Some 2; Some 3]%Z)].

Definition table_b : Table :=
  pa_table [("pk"%string, StringColumn [text "c"; text "a"]);
            ("sk"%string, Int64Column [Some 4; Some 5]%Z)].

(** A null in the key column [pk]. *)
Definition table_null : Table :=
  pa_table [("pk"%string, StringColumn [text "a"; None]);
            ("sk"%string, Int64Column [Some 1; Some 2]%Z)].

(** The key 1, alone in its column and beside a null. *)
Definition table_one : Table :=
  pa_table [("pk"%string, Int64Column [Some 1%Z])].
Definition table_one_null : Table :=
  pa_table [("pk"%string, Int64Column [Some 1%Z; None])].

Definition a10 : Annotation := mkAnnotation 10 0 INSERT.
Definition a20 : Annotation := mkAnnotation 20 0 UPDATE.

Definition manifest_a : AnnotatedDeltaManifest := mkManifest 1 [a10].
Definition manifest_b : AnnotatedDeltaManifest := mkManifest 2 [a20].
(** Two annotations, for which the storage below returns one table. *)
Definition manifest_short : AnnotatedDeltaManifest := mkManifest 3 [a10; a20].

Definition storage : Storage :=
  mkStorage (fun m kw =>
    match manifest_id m with
    | 1 => Ok [table_a]
    | 2 => Ok [table_b]
    | 3 => Ok [table_a]
    | _ => Err (StorageError 404)
    end).

End Sample.

(** ** The steps of the partitioner, one by one *)

(** The converted primary-key columns, in the order of the key names. *)
Definition key_columns (t : Table) (primary_keys : list string)
  : result (list (list value)) :=
  result_mapM (fun k => result_bind (table_getitem t k)
                          (fun c => Ok (to_numpy c))) primary_keys.

(** The table of one bucket: the rows at [indices], with their positions
    as the last column. *)
Definition bucket_table
  (ordered_record_idx_column_name : string) (t : Table) (indices : list nat)
  : result Table :=
  result_bind (table_take t indices) (fun taken =>
    append_column taken ordered_record_idx_column_name
      (Int64Column (map (fun i => Some (Z.of_nat i)) indices))).

(** The index list of a slot when Python takes it as true. *)
Definition truthy_indices (slot : option (option (list nat))) : option (list nat) :=
  match slot with
  | Some (Some (i :: rest)) => Some (i :: rest)
  | _ => None
  end.

(** The row count of a slot of the partitioner's array. *)
Definition slot_rows (slot : option Table) : nat :=
  match slot with
  | Some t => num_rows t
  | None => 0
  end.

(** The collaborator's contract for [num_buckets]: on a table of equal
    row counts, the index lists it returns partition the row positions. *)
Definition returns_partition
  (grouping : Table -> Z -> result (list (option (list nat))))
  (num_buckets : Z) : Prop :=
  forall t idx,
    equal_row_counts t = true ->
    grouping t num_buckets = Ok idx ->
    Permutation (concat (map (default []) idx)) (seq 0 (num_rows t)).

(** The cell of column [name] at row [i]. *)
Definition table_cell (t : Table) (name : string) (i : nat) : option cell :=
  match table_getitem t name with
  | Ok c => column_cells c !! i
  | Err _ => None
  end.

(** Row [i] of the partitioned table is recorded in bucket [b]. *)
Definition row_in_bucket (out : list (option Table)) (b i : nat) : Prop :=
  exists t, out !! b = Some (Some t)
            /\ Some (VInt (Z.of_nat i)) ∈ record_positions t.

(** The body of the loop of the partitioner that materialises the
    buckets. *)
Definition materialise (ordered_record_idx_column_name : string)
  (t : Table) (idx : list (option (list nat)))
  (hash_bucket : nat) (arr : list (option Table)) : M (list (option Table)) :=
  indices <- getitem idx hash_bucket ;;
  match indices with
  | Some (i :: rest) =>
      taken <- lift (table_take t (i :: rest)) ;;
      bucketed <- append_record_idx_col ordered_record_idx_column_name taken
                    (i :: rest) ;;
      setitem arr hash_bucket bucketed
  | _ => ret arr
  end.

(** The digest function on the strings of the values: what
    [hash_pk_bytes_generator] computes once [str] has been applied. *)
Definition digest_strings (all_column_strings : list (list pystr))
  : M (list bytes) :=
  first <- getitem all_column_strings 0 ;;
  for_each (range (length first)) (fun field_index yielded =>
    bytes_to_join <-
      for_each all_column_strings (fun column_strings bytes_to_join =>
        s <- getitem column_strings field_index ;;
        b <- lift (utf8_encode s) ;;
        ret (bytes_to_join ++ [b])) [] ;;
    let joined := bytes_join _PK_BYTES_DELIMITER bytes_to_join in
    emit (EvDigest joined) ;;
    ret (yielded ++ [sha1_digest joined])) [].

(** ** Runs of the partitioner on the sample tables *)

Module SampleRuns.

Definition run (num_buckets : Z) (t : Table)
  : list event * list (option Table) :=
  let r := group_by_pk_hash_bucket Sample.pk_hash Sample.record_idx
             Sample.grouping t num_buckets ["pk"%string] in
  (fst r, match snd r with Ok out => out | Err _ => [] end).

Definition run_a : list event * list (option Table) :=
  Eval vm_compute in run 3 Sample.table_a.

Definition run_null : list event * list (option Table) :=
  Eval vm_compute in run 4 Sample.table_null.

Definition run_one : list event * list (option Table) :=
  Eval vm_compute in run 4 Sample.table_one.

Definition run_one_null : list event * list (option Table) :=
  Eval vm_compute in run 4 Sample.table_one_null.

End SampleRuns.

(** ** The delimiter as text *)

(** The string whose UTF-8 encoding is the delimiter. *)
Definition delimiter_text : pystr := map Byte.to_N _PK_BYTES_DELIMITER.

(** ** The digests of one row index *)

(** The digest that [hash_pk_bytes_generator] yields for [field_index]. *)
Definition digest_at (all_column_fields : list (list value))
  (field_index : nat) : M bytes :=
  encoded <-
    mapM_M (fun column_fields =>
              v <- getitem column_fields field_index ;;
              lift (utf8_encode (str v)))
      all_column_fields ;;
  emit (EvDigest (bytes_join _PK_BYTES_DELIMITER encoded)) ;;
  ret (sha1_digest (bytes_join _PK_BYTES_DELIMITER encoded)).

(** ** More sample inputs *)

Module SampleMore.

Definition names : list string := ["pk"; "sk"; "payload"]%string.

(** Bucket 1 of the partition of [Sample.table_a] into three buckets. *)
Definition bucket_a1 : Table :=
  Eval vm_compute in
    match snd SampleRuns.run_a !! 1 with
    | Some (Some t) => t
    | _ => pa_table []
    end.

(** Two key columns, the second longer than the first. *)
Definition ragged_columns : list (list value) :=
  [[VInt 1; VInt 2]; [Sample.s "x"; Sample.s "y"; Sample.s "z"]].

Definition ragged_run : list event * list bytes :=
  Eval vm_compute in
    (let r := hash_pk_bytes_generator ragged_columns in
     (fst r, match snd r with Ok ds => ds | Err _ => [] end)).




(** A table without rows. *)
Definition table_empty : Table :=
  pa_table [("pk"%string, StringColumn []); ("sk"%string, Int64Column [])].

(** A collaborator that, asked for no bucket, answers only for a table
    without rows. *)
Definition strict_grouping (t : Table) (num_buckets : Z)
  : result (list (option (list nat))) :=
  if (num_buckets <=? 0)%Z
  then (if num_rows t =? 0 then Ok [] else Err InvalidArgument)
  else Sample.grouping t num_buckets.

End SampleMore.

(** ** Tables that differ in the cells of their columns *)




(** * Properties *)

(** ** SHA-1 on the standard test vectors *)

Example sha1_empty :
  hexlify (sha1_digest []) = "da39a3ee5e6b4b0d3255bfef95601890afd80709"%string.
Proof. vm_compute. reflexivity. Qed.

Example sha1_abc :
  hexlify (sha1_digest (list_byte_of_string "abc"))
  = "a9993e364706816aba3e25717850c26c9cd0d89d"%string.
Proof. vm_compute. reflexivity. Qed.

Example sha1_two_blocks :
  hexlify (sha1_digest (list_byte_of_string
    "abcdbcdecdefdefgefghfghighijhijkijkljklmklmnlmnomnopnopq"))
  = "84983e441c3bd26ebaae4aa1f95129e5e54670f1"%string.
Proof. vm_compute. reflexivity. Qed.

(** ** UTF-8 and [str] on examples *)

Example utf8_encode_widths :
  utf8_encode [0x41; 0xE9; 0x20AC; 0x1F600]%N
  = Ok [x41; xc3; xa9; xe2; x82; xac; xf0; x9f; x98; x80].
Proof. reflexivity. Qed.

Example utf8_encode_surrogate : utf8_encode [0xD800%N] = Err UnicodeEncodeError.
Proof. reflexivity. Qed.

Example str_examples :
  str (VInt (-12)) = pystr_of_string "-12"
  /\ str (VInt 0) = pystr_of_string "0"
  /\ str (VBool false) = pystr_of_string "False"
  /\ str (VBytes [x61; x5c; x00]) = pystr_of_string "b'a\\\x00'"
  /\ str VNone = pystr_of_string "None"
  /\ str (VFloat Float64.nan) = pystr_of_string "nan"
  /\ str (VFloat (Float64.of_int 1)) = pystr_of_string "1.0"
  /\ str (VFloat (Float64.of_int (-20))) = pystr_of_string "-20.0".
Proof. repeat split. Qed.

(** ** [repr] of floats on examples *)

(** The strings are those that Python prints for these floats. *)
Example float_repr_examples :
  map (fun me => Float64.repr (S754_finite false (Z.to_pos (fst me)) (snd me)))
    [(4503599627370496, -52); (7205759403792794, -56);
     (6004799503160661, -54); (5404319552844595, -52);
     (4503599627370496, 1); (5000000000000000, 1); (5551115123125783, 1);
     (7378697629483821, -66); (5902958103587057, -69); (1, -1074);
     (4503599627370496, -1074); (9007199254740991, 971);
     (5960464477539062, 24); (8020401000976562, 20);
     (4503599627370497, -52); (6986315564846718, -9);
     (5404319552844595, -54); (4722366482869645, -74)]%Z
  = ["1.0"; "0.1"; "0.3333333333333333"; "1.2"; "9007199254740992.0";
     "1e+16"; "1.1102230246251566e+16"; "0.0001"; "1e-05"; "5e-324";
     "2.2250738585072014e-308"; "1.7976931348623157e+308"; "1e+23";
     "8.41e+21"; "1.0000000000000002"; "13645147587591.246"; "0.3";
     "2.5e-07"]%string.
Proof. vm_compute. reflexivity. Qed.

(** [float(z)] rounds to the nearest float, ties to even. *)
Example float_of_int_examples :
  map (fun z => Float64.repr (Float64.of_int z))
    [0; 7; -1; 9007199254740993; 9007199254740995; 9223372036854775807;
     -9223372036854775808; 10000000000000000; 123456789012345678]%Z
  = ["0.0"; "7.0"; "-1.0"; "9007199254740992.0"; "9007199254740996.0";
     "9.223372036854776e+18"; "-9.223372036854776e+18"; "1e+16";
     "1.2345678901234568e+17"]%string.
Proof. vm_compute. reflexivity. Qed.

(** ** The monad *)

Arguments bind : simpl never.
Arguments ret : simpl never.
Arguments raise : simpl never.
Arguments lift : simpl never.
Arguments emit : simpl never.

Lemma bind_ret_l {A B} (a : A) (k : A -> M B) : bind (ret a) k = k a.
Proof. unfold bind, ret. by destruct (k a). Qed.

Lemma bind_lift_Ok {A B} (a : A) (k : A -> M B) : bind (lift (Ok a)) k = k a.
Proof. apply bind_ret_l. Qed.

Lemma bind_lift_Err {A B} (e : error) (k : A -> M B) :
  bind (lift (Err e)) k = raise e.
Proof. reflexivity. Qed.

Lemma bind_raise {A B} (e : error) (k : A -> M B) : bind (raise e) k = raise e.
Proof. reflexivity. Qed.

Lemma bind_ret_r {A} (m : M A) : bind m ret = m.
Proof.
  destruct m as [tr [a|e]]; unfold bind, ret; [|reflexivity].
  by rewrite app_nil_r.
Qed.

Lemma bind_assoc {A B C} (m : M A) (k : A -> M B) (h : B -> M C) :
  bind (bind m k) h = bind m (fun a => bind (k a) h).
Proof.
  destruct m as [tr [a|e]]; unfold bind; [|reflexivity].
  destruct (k a) as [tr' [b|e]]; [|reflexivity].
  destruct (h b) as [tr'' r]. by rewrite app_assoc.
Qed.

Lemma bind_ext {A B} (m : M A) (k k' : A -> M B) :
  (forall a, k a = k' a) -> bind m k = bind m k'.
Proof.
  intros Hk. destruct m as [tr [a|e]]; unfold bind; [|reflexivity].
  by rewrite Hk.
Qed.

Lemma bind_lift_lift {A B} (r : result A) (k : A -> result B) :
  bind (lift r) (fun a => lift (k a)) = lift (result_bind r k).
Proof. by destruct r. Qed.

(** A computation that succeeds splits at each of its binds. *)
Lemma bind_Ok_inv {A B} (m : M A) (k : A -> M B) tr b :
  bind m k = (tr, Ok b) ->
  exists tr1 a tr2, m = (tr1, Ok a) /\ k a = (tr2, Ok b) /\ tr = tr1 ++ tr2.
Proof.
  destruct m as [tr1 [a|e]]; unfold bind; [|discriminate].
  destruct (k a) as [tr2 r] eqn:Hk. intros [= <- ->].
  by exists tr1, a, tr2.
Qed.

Lemma lift_Ok_inv {A} (r : result A) tr a :
  lift r = (tr, Ok a) -> r = Ok a /\ tr = [].
Proof. unfold lift. by intros [= <- ->]. Qed.

Lemma ret_Ok_inv {A} (x : A) tr a : ret x = (tr, Ok a) -> a = x /\ tr = [].
Proof. unfold ret. by intros [= <- ->]. Qed.

(** ** Loops *)

(** A loop that appends one computed element per iteration is a map. *)
Lemma for_each_snoc {A B} (g : A -> M B) (xs : list A) (acc : list B) :
  for_each xs (fun x acc => y <- g x ;; ret (acc ++ [y])) acc
  = (ys <- mapM_M g xs ;; ret (acc ++ ys)).
Proof.
  revert acc. induction xs as [|x xs IH]; intros acc; simpl.
  - by rewrite bind_ret_l, app_nil_r.
  - rewrite !bind_assoc. apply bind_ext. intros y.
    rewrite bind_ret_l, IH, bind_assoc. apply bind_ext. intros ys.
    by rewrite bind_ret_l, <- app_assoc.
Qed.

Lemma mapM_M_ext_seq {A B} (g : nat -> M B) (h : A -> M B) (l : list A) a :
  (forall i r, l !! i = Some r -> g (a + i) = h r) ->
  mapM_M g (seq a (length l)) = mapM_M h l.
Proof.
  revert a. induction l as [|r l IH]; intros a Hg; simpl; [reflexivity|].
  rewrite <- (Hg 0 r eq_refl), Nat.add_0_r.
  apply bind_ext. intros y. rewrite (IH (S a)); [reflexivity|].
  intros i r' Hi. rewrite <- (Hg (S i) r' Hi). f_equal. lia.
Qed.

Lemma mapM_M_lift {A B} (f : A -> result B) (l : list A) :
  mapM_M (fun x => lift (f x)) l = lift (result_mapM f l).
Proof.
  induction l as [|x l IH]; simpl; [reflexivity|].
  rewrite IH. destruct (f x) as [y|e]; simpl; [|reflexivity].
  rewrite bind_lift_Ok.
  by destruct (result_mapM f l) as [ys|e].
Qed.

(** ** Rows of columns *)

Lemma rows_of_cons (c c' : list value) cs :
  rows_of (c :: c' :: cs) = zip_with cons c (rows_of (c' :: cs)).
Proof. reflexivity. Qed.

Lemma rows_of_length (cols : list (list value)) n :
  cols <> [] -> Forall (fun c => length c = n) cols ->
  length (rows_of cols) = n.
Proof.
  induction cols as [|c cs IH]; [done|]. intros _ Hlen.
  apply Forall_cons in Hlen as [Hc Hcs].
  destruct cs as [|c' cs'].
  - simpl. by rewrite length_map.
  - rewrite rows_of_cons, length_zip_with, IH by done. lia.
Qed.

Lemma rows_of_lookup (cols : list (list value)) i row :
  rows_of cols !! i = Some row ->
  Forall2 (fun c v => c !! i = Some v) cols row.
Proof.
  revert row. induction cols as [|c cs IH]; intros row; [done|].
  destruct cs as [|c' cs'].
  - simpl. rewrite list_lookup_fmap.
    destruct (c !! i) as [v|] eqn:Hv; simpl; [|done].
    intros [= <-]. by repeat constructor.
  - rewrite rows_of_cons, lookup_zip_with.
    remember (rows_of (c' :: cs')) as R eqn:HR.
    destruct (c !! i) as [v|] eqn:Hv; simpl; [|done].
    destruct (R !! i) as [r|] eqn:Hr; simpl; [|done].
    intros [= <-]. constructor; [done|]. by apply IH.
Qed.

Lemma for_each_ext {A S} (xs : list A) (body body' : A -> S -> M S) s :
  (forall x s, body x s = body' x s) ->
  for_each xs body s = for_each xs body' s.
Proof.
  intros Hb. revert s. induction xs as [|x xs IH]; intros s; simpl; [done|].
  rewrite Hb. by apply bind_ext.
Qed.

Lemma getitem_Some {A} (l : list A) i x : l !! i = Some x -> getitem l i = ret x.
Proof. unfold getitem. by intros ->. Qed.

Lemma mapM_M_getitem {A B} (f : A -> result B) (cols : list (list A)) i row :
  Forall2 (fun c v => c !! i = Some v) cols row ->
  mapM_M (fun c => v <- getitem c i ;; lift (f v)) cols
  = lift (result_mapM f row).
Proof.
  induction 1 as [|c v cols row Hc _ IH]; simpl; [done|].
  rewrite (getitem_Some _ _ _ Hc), bind_ret_l, IH.
  destruct (f v) as [y|e]; simpl; [|done].
  rewrite bind_lift_Ok. by destruct (result_mapM f row).
Qed.

Lemma for_each_collect {A B} (g : A -> M B) (xs : list A) :
  for_each xs (fun x acc => y <- g x ;; ret (acc ++ [y])) [] = mapM_M g xs.
Proof. rewrite for_each_snoc. simpl. apply bind_ret_r. Qed.

(** The inner loop of the digest function: the encoded values of row [i]. *)
Lemma encode_row_loop (cols : list (list value)) i :
  for_each cols (fun column_fields bytes_to_join =>
    v <- getitem column_fields i ;;
    b <- lift (utf8_encode (str v)) ;;
    ret (bytes_to_join ++ [b])) []
  = mapM_M (fun c => v <- getitem c i ;; lift (utf8_encode (str v))) cols.
Proof.
  rewrite <- for_each_collect. apply for_each_ext. intros c acc.
  by rewrite bind_assoc.
Qed.


(** ** The digest function, row by row *)

Lemma generator_yields_row_digests
  (first : list value) (others : list (list value)) :
  Forall (fun c => length c = length first) others ->
  hash_pk_bytes_generator (first :: others)
  = mapM_M joined_row_digest (rows_of (first :: others)).
Proof.
  intros Hlen. unfold hash_pk_bytes_generator.
  change (getitem (first :: others) 0) with (@ret (list value) first).
  rewrite bind_ret_l.
  set (cols := first :: others).
  assert (Hcols : Forall (fun c => length c = length first) cols)
    by (by constructor).
  rewrite (for_each_ext _ _ (fun i yielded =>
    y <- (encoded <-
            mapM_M (fun c => v <- getitem c i ;; lift (utf8_encode (str v)))
              cols ;;
          emit (EvDigest (bytes_join _PK_BYTES_DELIMITER encoded)) ;;
          ret (sha1_digest (bytes_join _PK_BYTES_DELIMITER encoded))) ;;
    ret (yielded ++ [y]))).
  2:{ intros i yielded. rewrite encode_row_loop, !bind_assoc.
      apply bind_ext. intros encoded. rewrite !bind_assoc.
      apply bind_ext. intros _. by rewrite bind_ret_l. }
  rewrite for_each_collect. unfold range.
  rewrite <- (rows_of_length cols (length first)) by done.
  apply mapM_M_ext_seq. intros i row Hrow. cbv beta. rewrite Nat.add_0_l.
  rewrite (mapM_M_getitem _ _ _ _ (rows_of_lookup _ _ _ Hrow)).
  reflexivity.
Qed.

(** [join] puts the delimiter between the parts and nowhere else. *)
Lemma bytes_join_delimited (parts : list bytes) :
  bytes_join _PK_BYTES_DELIMITER parts = delimited parts.
Proof.
  destruct parts as [|p rest]; [done|]. revert p.
  induction rest as [|q rest IH]; intros p.
  - simpl. by rewrite app_nil_r.
  - change (bytes_join _PK_BYTES_DELIMITER (p :: q :: rest))
      with (p ++ _PK_BYTES_DELIMITER ++ bytes_join _PK_BYTES_DELIMITER (q :: rest)).
    rewrite IH. reflexivity.
Qed.

Lemma joined_row_digest_spec (row : list value) :
  joined_row_digest row = row_digest row.
Proof.
  unfold joined_row_digest, row_digest. apply bind_ext. intros encoded.
  cbv zeta. by rewrite bytes_join_delimited.
Qed.

Lemma mapM_M_ext {A B} (g h : A -> M B) xs :
  (forall x, g x = h x) -> mapM_M g xs = mapM_M h xs.
Proof.
  intros Hgh. induction xs as [|x xs IH]; simpl; [done|]. by rewrite Hgh, IH.
Qed.

(** C4. For a non-empty list of primary-key columns of equal length, the
    digest function yields, row by row and in row order, the SHA-1 digest of
    the row's values: each taken as its string, in the order of the
    columns, encoded as UTF-8, the encodings concatenated with the delimiter
    [L6kl7u5f] between them. *)
Theorem hash_pk_bytes_generator_row_digests
  (first : list value) (others : list (list value)) :
  Forall (fun c => length c = length first) others ->
  hash_pk_bytes_generator (first :: others)
  = mapM_M row_digest (rows_of (first :: others)).
Proof.
  intros Hlen. rewrite generator_yields_row_digests by done.
  apply mapM_M_ext, joined_row_digest_spec.
Qed.


(** ** The digests of the rows *)

Lemma hash_pk_bytes_generator_rows (cols : list (list value)) n :
  cols <> [] -> Forall (fun c => length c = n) cols ->
  hash_pk_bytes_generator cols = mapM_M joined_row_digest (rows_of cols).
Proof.
  destruct cols as [|first others]; [done|]. intros _ Hlen.
  apply Forall_cons in Hlen as [<- Hlen].
  by apply generator_yields_row_digests.
Qed.

Lemma mapM_M_row_digest_trace rows tr ds :
  mapM_M joined_row_digest rows = (tr, Ok ds) ->
  exists inputs,
    tr = map EvDigest inputs
    /\ ds = map sha1_digest inputs
    /\ length inputs = length rows.
Proof.
  revert tr ds. induction rows as [|row rows IH]; intros tr ds; simpl.
  - intros H. apply ret_Ok_inv in H as [-> ->]. by exists [].
  - intros H. apply bind_Ok_inv in H as (tr1 & d & tr2 & Hd & H & ->).
    apply bind_Ok_inv in H as (tr3 & ds' & tr4 & Hds & H & ->).
    apply ret_Ok_inv in H as [-> ->].
    apply IH in Hds as (inputs & -> & -> & Hlen).
    unfold joined_row_digest in Hd.
    apply bind_Ok_inv in Hd as (tr5 & encoded & tr6 & Henc & Hd & ->).
    apply lift_Ok_inv in Henc as [_ ->].
    apply bind_Ok_inv in Hd as (tr7 & [] & tr8 & Hev & Hd & ->).
    apply ret_Ok_inv in Hd as [-> ->]. injection Hev as <-.
    exists (bytes_join _PK_BYTES_DELIMITER encoded :: inputs).
    split; [|split]; simpl; rewrite ?app_nil_r; [done|done|by rewrite Hlen].
Qed.

(** The conversion of a column gives one element per cell. *)
Lemma omap_no_null {A B} (f : A -> B) (cells : list (option A)) :
  existsb is_null cells = false ->
  length (omap (option_map f) cells) = length cells.
Proof.
  induction cells as [|[x|] cells IH]; [done| |done].
  intros H. cbn. f_equal. exact (IH H).
Qed.

Lemma to_numpy_length (c : column) : length (to_numpy c) = column_length c.
Proof.
  unfold column_length.
  destruct c as [cells|cells|cells|cells|cells]; simpl;
    rewrite ?length_map; try done.
  destruct (existsb is_null cells) eqn:Hnull.
  - by rewrite length_map.
  - by apply omap_no_null.
Qed.


(** ** The envelope reader *)

(** C9. Given no manifest, the envelope reader and the aggregator both
    return the no-data result [None], which no array of bucket slots
    equals, whatever its length and contents. *)
Theorem empty_manifests_no_data
  (pk_hash_column_name ordered_record_idx_column_name : string)
  (kwargs_key : ContentType -> string)
  (grouping : Table -> Z -> result (list (option (list nat))))
  (num_hash_buckets : Z) (column_names primary_keys sort_key_names : list string)
  (deltacat_storage : Storage) :
  read_delta_file_envelopes kwargs_key [] column_names primary_keys
    sort_key_names deltacat_storage = ret None
  /\ group_file_records_by_pk_hash_bucket pk_hash_column_name
       ordered_record_idx_column_name kwargs_key grouping [] num_hash_buckets
       column_names primary_keys sort_key_names deltacat_storage = ret None
  /\ forall slots : list (option (list DeltaFileEnvelope)),
       ret (Some slots) <> ret None.
Proof. repeat split. intros slots. discriminate. Qed.

(** The keyword arguments cannot be built: the set display hashes its
    elements, and neither a [ReadOptions] nor a [ConvertOptions] has a
    hash. *)
Lemma file_reader_kwargs_unhashable
  (kwargs_key : ContentType -> string) (column_names columns_to_read : list string) :
  file_reader_kwargs kwargs_key column_names columns_to_read = raise TypeError.
Proof. reflexivity. Qed.

(** With a manifest to read, the reader fails while it evaluates the
    arguments of its first download. *)
Lemma reader_with_manifest
  (kwargs_key : ContentType -> string) (adms : list AnnotatedDeltaManifest)
  (column_names primary_keys sort_key_names : list string) (storage : Storage) :
  adms <> [] ->
  read_delta_file_envelopes kwargs_key adms column_names primary_keys
    sort_key_names storage = ([], Err TypeError).
Proof.
  destruct adms as [|m adms]; [done|]. intros _.
  unfold read_delta_file_envelopes. cbv zeta. cbn [for_each].
  by rewrite file_reader_kwargs_unhashable.
Qed.

Lemma aggregator_with_manifest
  (pk_hash_column_name ordered_record_idx_column_name : string)
  (kwargs_key : ContentType -> string)
  (grouping : Table -> Z -> result (list (option (list nat))))
  (adms : list AnnotatedDeltaManifest) (num_hash_buckets : Z)
  (column_names primary_keys sort_key_names : list string) (storage : Storage) :
  adms <> [] ->
  group_file_records_by_pk_hash_bucket pk_hash_column_name
    ordered_record_idx_column_name kwargs_key grouping adms num_hash_buckets
    column_names primary_keys sort_key_names storage = ([], Err TypeError).
Proof.
  intros Hne. unfold group_file_records_by_pk_hash_bucket.
  by rewrite reader_with_manifest.
Qed.

(** C1. With a manifest to read, the reader fails with a [TypeError]
    before it calls the storage, whatever number of tables the storage
    would return: the failure is not an [IntegrityError].  The assertion
    that is meant to compare the two lengths (lines 138-141) raises nothing
    on any two lists: what it asserts is a pair. *)
Theorem read_delta_file_envelopes_length_mismatch
  (kwargs_key : ContentType -> string) (adms : list AnnotatedDeltaManifest)
  (column_names primary_keys sort_key_names : list string) (storage : Storage) :
  adms <> [] ->
  read_delta_file_envelopes kwargs_key adms column_names primary_keys
    sort_key_names storage = ([], Err TypeError)
  /\ forall tables annotations,
       assert_lengths_match tables annotations = ret tt.
Proof.
  intros Hne. split; [by apply reader_with_manifest|]. reflexivity.
Qed.

(** ** The aggregator *)

(** C7. With a manifest to read, the aggregator fails with the reader's
    [TypeError] before any download: it builds no slot and no list of
    envelopes, in any order. *)
Theorem group_file_records_by_pk_hash_bucket_no_slots
  (pk_hash_column_name ordered_record_idx_column_name : string)
  (kwargs_key : ContentType -> string)
  (grouping : Table -> Z -> result (list (option (list nat))))
  (adms : list AnnotatedDeltaManifest) (num_hash_buckets : Z)
  (column_names primary_keys sort_key_names : list string) (storage : Storage) :
  adms <> [] ->
  group_file_records_by_pk_hash_bucket pk_hash_column_name
    ordered_record_idx_column_name kwargs_key grouping adms num_hash_buckets
    column_names primary_keys sort_key_names storage = ([], Err TypeError).
Proof. apply aggregator_with_manifest. Qed.

(** C8. The aggregator produces no envelope: whatever it is given, it does
    not return an array of slots.  Its result is the no-data result when
    there is no manifest, and the reader's [TypeError] otherwise. *)
Theorem group_file_records_by_pk_hash_bucket_no_envelope
  (pk_hash_column_name ordered_record_idx_column_name : string)
  (kwargs_key : ContentType -> string)
  (grouping : Table -> Z -> result (list (option (list nat))))
  (adms : list AnnotatedDeltaManifest) (num_hash_buckets : Z)
  (column_names primary_keys sort_key_names : list string) (storage : Storage)
  tr (slots : list (option (list DeltaFileEnvelope))) :
  group_file_records_by_pk_hash_bucket pk_hash_column_name
    ordered_record_idx_column_name kwargs_key grouping adms num_hash_buckets
    column_names primary_keys sort_key_names storage <> (tr, Ok (Some slots)).
Proof.
  destruct adms as [|m adms].
  - discriminate.
  - by rewrite aggregator_with_manifest.
Qed.

(** ** Arguments the step does not check *)

(** C3. The step checks neither the number of buckets nor the primary
    keys.  Called without manifests, it hands the no-data result and the
    two numbers to the group assembler and returns what the assembler
    returns; and the partitioner, given no primary key, fails with the
    [IndexError] of the digest function, whatever the table and the number
    of buckets. *)
Theorem hash_bucket_unchecked_arguments
  (pk_hash_column_name ordered_record_idx_column_name : string)
  (kwargs_key : ContentType -> string)
  (grouping : Table -> Z -> result (list (option (list nat))))
  (GroupResult : Type)
  (group_hash_bucket_indices :
     option (list (option (list DeltaFileEnvelope))) -> Z -> Z -> M GroupResult)
  (column_names primary_keys : list string)
  (sort_keys : list (string * string)) (num_buckets num_groups : Z)
  (storage : Storage) (table : Table) :
  hash_bucket pk_hash_column_name ordered_record_idx_column_name kwargs_key
    grouping GroupResult group_hash_bucket_indices [] column_names
    primary_keys sort_keys num_buckets num_groups storage
  = group_hash_bucket_indices None num_buckets num_groups
  /\ group_by_pk_hash_bucket pk_hash_column_name
       ordered_record_idx_column_name grouping table num_buckets []
     = ([], Err IndexError).
Proof.
  split; [|reflexivity].
  unfold hash_bucket, group_file_records_by_pk_hash_bucket. cbv zeta.
  change (read_delta_file_envelopes kwargs_key [] column_names primary_keys
            (map get_key_name sort_keys) storage) with
    (@ret (option (list DeltaFileEnvelope)) None).
  by rewrite !bind_ret_l.
Qed.

(** C3, the claim as stated fails: with no manifest, no primary key and no
    bucket, the aggregator rejects nothing and returns the no-data result;
    with a manifest, no primary key and a negative number of buckets, the
    step fails with a [TypeError]; and the partitioner, given no primary
    key and no bucket, fails with an [IndexError]. *)
Lemma hash_bucket_no_argument_check :
  group_file_records_by_pk_hash_bucket Sample.pk_hash Sample.record_idx
    Sample.kwargs_key Sample.grouping [] 0 ["pk"; "sk"]%string []
    ["sk"]%string Sample.storage
  = ([], Ok None)
  /\ hash_bucket Sample.pk_hash Sample.record_idx Sample.kwargs_key
       Sample.grouping unit Sample.assembler [Sample.manifest_a]
       ["pk"; "sk"]%string [] [("sk", "asc")]%string (-1) 1 Sample.storage
     = ([], Err TypeError)
  /\ group_by_pk_hash_bucket Sample.pk_hash Sample.record_idx Sample.grouping
       Sample.table_a 0 []
     = ([], Err IndexError).
Proof. repeat split. Qed.

(** X15. An exception that ends the step is the [TypeError] of the
    reader's keyword arguments, raised with nothing downloaded and no
    digest computed, when there is a manifest; without manifests the
    exception and the events are those of the group assembler, called on
    the no-data result. *)
Theorem hash_bucket_failure_sources
  (pk_hash_column_name ordered_record_idx_column_name : string)
  (kwargs_key : ContentType -> string)
  (grouping : Table -> Z -> result (list (option (list nat))))
  (GroupResult : Type)
  (group_hash_bucket_indices :
     option (list (option (list DeltaFileEnvelope))) -> Z -> Z -> M GroupResult)
  (adms : list AnnotatedDeltaManifest)
  (column_names primary_keys : list string)
  (sort_keys : list (string * string)) (num_buckets num_groups : Z)
  (storage : Storage) tr e :
  hash_bucket pk_hash_column_name ordered_record_idx_column_name kwargs_key
    grouping GroupResult group_hash_bucket_indices adms column_names
    primary_keys sort_keys num_buckets num_groups storage = (tr, Err e) ->
  (adms <> [] /\ tr = [] /\ e = TypeError)
  \/ (adms = []
      /\ group_hash_bucket_indices None num_buckets num_groups = (tr, Err e)).
Proof.
  destruct adms as [|m adms].
  - intros H. right. split; [done|]. rewrite <- H. symmetry.
    unfold hash_bucket, group_file_records_by_pk_hash_bucket. cbv zeta.
    change (read_delta_file_envelopes kwargs_key [] column_names primary_keys
              (map get_key_name sort_keys) storage) with
      (@ret (option (list DeltaFileEnvelope)) None).
    by rewrite !bind_ret_l.
  - unfold hash_bucket. cbv zeta.
    rewrite aggregator_with_manifest by done.
    intros [= <- <-]. left. done.
Qed.


(** ** The partitioner *)

Lemma key_columns_loop (t : Table) (primary_keys : list string) :
  for_each primary_keys (fun pk_name all_pk_column_fields =>
    col <- lift (table_getitem t pk_name) ;;
    let column_fields := to_numpy col in
    ret (all_pk_column_fields ++ [column_fields])) []
  = lift (key_columns t primary_keys).
Proof.
  unfold key_columns. rewrite <- mapM_M_lift, <- for_each_collect.
  apply for_each_ext. intros k acc. cbv zeta.
  rewrite <- bind_lift_lift, bind_assoc. apply bind_ext. intros c.
  by rewrite bind_lift_Ok.
Qed.

(** ** The partitioner, step by step *)

Section Partitioner.

Variable pk_hash_column_name : string.
Variable ordered_record_idx_column_name : string.
Variable grouping : Table -> Z -> result (list (option (list nat))).

Local Abbreviation group_by :=
  (group_by_pk_hash_bucket pk_hash_column_name ordered_record_idx_column_name
     grouping).

Local Abbreviation materialise :=
  (materialise ordered_record_idx_column_name).

Lemma materialise_Ok_inv t idx b arr tr arr' :
  b < length idx ->
  materialise t idx b arr = (tr, Ok arr') ->
  tr = []
  /\ match truthy_indices (idx !! b) with
     | Some l => exists tb,
         bucket_table ordered_record_idx_column_name t l = Ok tb
         /\ b < length arr /\ arr' = <[b := Some tb]> arr
     | None => arr' = arr
     end.
Proof.
  intros Hb. unfold materialise, getitem.
  destruct (lookup_lt_is_Some_2 idx b Hb) as [slot Hslot]. rewrite Hslot.
  rewrite bind_ret_l. unfold truthy_indices.
  destruct slot as [[|i rest]|].
  - intros H. by apply ret_Ok_inv in H as [-> ->].
  - intros H. apply bind_Ok_inv in H as (tr1 & taken & tr2 & Htake & H & ->).
    apply lift_Ok_inv in Htake as [Htake ->].
    apply bind_Ok_inv in H as (tr3 & tb & tr4 & Happ & H & ->).
    apply lift_Ok_inv in Happ as [Happ ->].
    unfold setitem in H. destruct (b <? length arr) eqn:Hlt; [|done].
    apply ret_Ok_inv in H as [-> ->]. split; [done|].
    exists tb. unfold bucket_table. rewrite Htake. simpl.
    split; [done|]. split; [by apply Nat.ltb_lt|done].
  - intros H. by apply ret_Ok_inv in H as [-> ->].
Qed.

Lemma materialise_loop_Ok_inv t idx k a arr tr out :
  a + k = length idx ->
  for_each (seq a k) (materialise t idx) arr = (tr, Ok out) ->
  tr = [] /\ length out = length arr
  /\ forall b,
       if decide (a <= b) then
         match truthy_indices (idx !! b) with
         | Some l => exists tb,
             bucket_table ordered_record_idx_column_name t l = Ok tb
             /\ out !! b = Some (Some tb)
         | None => out !! b = arr !! b
         end
       else out !! b = arr !! b.
Proof.
  revert a arr tr. induction k as [|k IH]; intros a arr tr Hlen; simpl.
  - intros H. apply ret_Ok_inv in H as [-> ->].
    split; [done|]. split; [done|]. intros b.
    destruct (decide (a <= b)); [|done].
    rewrite (lookup_ge_None_2 idx b) by lia. done.
  - intros H. apply bind_Ok_inv in H as (tr1 & arr1 & tr2 & H1 & H & ->).
    apply materialise_Ok_inv in H1 as [-> H1]; [|lia].
    apply IH in H as (-> & Hlen' & Hout); [|lia].
    assert (Hlen1 : length arr1 = length arr).
    { destruct (truthy_indices (idx !! a)); [|by subst].
      destruct H1 as (tb & _ & _ & ->). by rewrite length_insert. }
    split; [done|]. split; [congruence|]. intros b.
    specialize (Hout b).
    destruct (decide (a <= b)) as [Hab|Hab].
    + destruct (decide (S a <= b)) as [Hsab|Hsab].
      * destruct (truthy_indices (idx !! b)); [done|].
        rewrite Hout. destruct (truthy_indices (idx !! a)); [|by subst].
        destruct H1 as (tb & _ & _ & ->).
        rewrite list_lookup_insert_ne by lia. done.
      * assert (b = a) as -> by lia. rewrite Hout.
        destruct (truthy_indices (idx !! a)); [|by subst].
        destruct H1 as (tb & Htb & Hlt & ->). exists tb. split; [done|].
        by rewrite list_lookup_insert_eq.
    + destruct (decide (S a <= b)); [lia|]. rewrite Hout.
      destruct (truthy_indices (idx !! a)); [|by subst].
      destruct H1 as (tb & _ & _ & ->).
      rewrite list_lookup_insert_ne by lia. done.
Qed.

(** What a successful run of the partitioner has gone through. *)
Lemma group_by_Ok_inv table num_buckets primary_keys tr out :
  group_by table num_buckets primary_keys = (tr, Ok out) ->
  exists cols digests t1 t2 idx,
    key_columns table primary_keys = Ok cols
    /\ hash_pk_bytes_generator cols = (tr, Ok digests)
    /\ append_column table pk_hash_column_name
         (BinaryColumn (map Some digests)) = Ok t1
    /\ table_drop t1 primary_keys = Ok t2
    /\ grouping t2 num_buckets = Ok idx
    /\ (0 <= num_buckets)%Z
    /\ length out = Z.to_nat num_buckets
    /\ forall b,
         match truthy_indices (idx !! b) with
         | Some l => exists tb,
             bucket_table ordered_record_idx_column_name t2 l = Ok tb
             /\ out !! b = Some (Some tb)
         | None => out !! b = replicate (Z.to_nat num_buckets) None !! b
         end.
Proof.
  unfold group_by_pk_hash_bucket. rewrite key_columns_loop. cbv zeta.
  intros H. apply bind_Ok_inv in H as (tr0 & cols & tr' & Hcols & H & ->).
  apply lift_Ok_inv in Hcols as [Hcols ->].
  apply bind_Ok_inv in H as (tr1 & t1 & tr2 & Ht1 & H & ->).
  unfold append_pk_hash_column in Ht1.
  apply bind_Ok_inv in Ht1 as (trd & digests & tr3 & Hd & Ht1 & ->).
  apply lift_Ok_inv in Ht1 as [Ht1 ->].
  apply bind_Ok_inv in H as (tr4 & t2 & tr5 & Ht2 & H & ->).
  apply lift_Ok_inv in Ht2 as [Ht2 ->].
  apply bind_Ok_inv in H as (tr6 & idx & tr7 & Hidx & H & ->).
  apply lift_Ok_inv in Hidx as [Hidx ->].
  apply bind_Ok_inv in H as (tr8 & arr & tr9 & Harr & H & ->).
  unfold np_empty in Harr.
  destruct (num_buckets <? 0)%Z eqn:Hn; [done|].
  apply ret_Ok_inv in Harr as [-> ->].
  change (for_each (range (length idx)) (materialise t2 idx)
            (replicate (Z.to_nat num_buckets) None) = (tr9, Ok out)) in H.
  apply materialise_loop_Ok_inv in H as (-> & Hlen & Hout); [|done].
  exists cols, digests, t1, t2, idx.
  rewrite length_replicate in Hlen. simpl. rewrite !app_nil_r.
  repeat (split; [done || lia|]).
  intros b. specialize (Hout b). destruct (decide (0 <= b)); [done|lia].
Qed.

(** *** Row counts *)

Lemma result_mapM_length {A B} (f : A -> result B) l ys :
  result_mapM f l = Ok ys -> length ys = length l.
Proof.
  revert ys. induction l as [|x l IH]; intros ys; simpl.
  - by intros [= <-].
  - destruct (f x) as [y|e]; simpl; [|done].
    destruct (result_mapM f l) as [ys'|e]; simpl; [|done].
    intros [= <-]. simpl. by rewrite (IH ys').
Qed.

Lemma result_mapM_Forall2 {A B} (f : A -> result B) l ys :
  result_mapM f l = Ok ys -> Forall2 (fun x y => f x = Ok y) l ys.
Proof.
  revert ys. induction l as [|x l IH]; intros ys; simpl.
  - intros [= <-]. constructor.
  - destruct (f x) as [y|e] eqn:Hx; simpl; [|done].
    destruct (result_mapM f l) as [ys'|e]; simpl; [|done].
    intros [= <-]. constructor; [done|]. by apply IH.
Qed.

(** *** The operations on tables *)

Lemma append_column_Ok (t : Table) name c t1 :
  append_column t name c = Ok t1 ->
  t1 = mkTable (num_rows t) (columns t ++ [(name, c)])
  /\ column_length c = num_rows t.
Proof.
  unfold append_column. destruct (column_length c =? _) eqn:Hlen; [|done].
  intros [= <-]. by apply Nat.eqb_eq in Hlen.
Qed.

Lemma equal_row_counts_Forall (t : Table) :
  equal_row_counts t = true <->
  Forall (fun nc : string * column => column_length (snd nc) = num_rows t)
    (columns t).
Proof.
  unfold equal_row_counts. rewrite forallb_forall, Forall_forall.
  split.
  - intros H nc Hin. apply Nat.eqb_eq, H. by apply list_elem_of_In.
  - intros H nc Hin. apply Nat.eqb_eq, H. by apply list_elem_of_In.
Qed.

Lemma remove_column_Ok (t : Table) i t' :
  remove_column t i = Ok t' ->
  i < length (columns t) /\ t' = mkTable (num_rows t) (delete i (columns t)).
Proof.
  unfold remove_column. destruct (i <? _) eqn:Hi; [|done].
  intros [= <-]. by apply Nat.ltb_lt in Hi.
Qed.

Lemma fold_remove_Err e indices :
  fold_left (fun acc i => result_bind acc (fun t' => remove_column t' i))
    indices (Err e) = Err e.
Proof. induction indices as [|i indices IH]; simpl; [done|]. apply IH. Qed.

Lemma remove_columns_cons t i indices :
  remove_columns t (i :: indices)
  = result_bind (remove_column t i) (fun t' => remove_columns t' indices).
Proof.
  unfold remove_columns. simpl.
  destruct (remove_column t i) as [t'|e]; simpl; [done|].
  apply fold_remove_Err.
Qed.

(** Removing columns keeps the row count and leaves columns of the
    table, in their order. *)
Lemma remove_columns_Ok t indices t' :
  remove_columns t indices = Ok t' ->
  num_rows t' = num_rows t /\ sublist (columns t') (columns t).
Proof.
  revert t. induction indices as [|i indices IH]; intros t.
  - by intros [= <-].
  - rewrite remove_columns_cons.
    destruct (remove_column t i) as [t1|e] eqn:H1; simpl; [|done].
    intros H. apply IH in H as [Hrows Hsub].
    apply remove_column_Ok in H1 as [_ ->]. simpl in *.
    split; [done|]. etrans; [exact Hsub|]. apply sublist_delete.
Qed.

Lemma table_drop_Ok t names t' :
  table_drop t names = Ok t' ->
  exists indices,
    result_mapM (fun name => match get_field_index t name with
                              | Some i => Ok i
                              | None => Err InvalidSchema
                              end) names = Ok indices
    /\ remove_columns t (reverse (merge_sort le indices)) = Ok t'.
Proof.
  unfold table_drop.
  destruct (result_mapM _ names) as [indices|e]; simpl; [|done].
  intros H. by exists indices.
Qed.

Lemma table_drop_rows t names t' :
  table_drop t names = Ok t' ->
  num_rows t' = num_rows t /\ sublist (columns t') (columns t).
Proof.
  intros (indices & _ & H)%table_drop_Ok. by apply remove_columns_Ok in H.
Qed.

Lemma cells_take_Ok {A} (cells : list (option A)) l r :
  cells_take cells l = Ok r -> Forall2 (fun i x => cells !! i = Some x) l r.
Proof.
  intros H. apply result_mapM_Forall2 in H.
  eapply Forall2_impl; [exact H|]. intros i x Hi. simpl in Hi.
  destruct (cells !! i); [|done]. by injection Hi as ->.
Qed.

(** Taking rows of a column gives, position by position, the cells at
    these rows. *)
Lemma column_take_Ok (c : column) l c' :
  column_take c l = Ok c' ->
  Forall2 (fun i x => column_cells c !! i = Some x) l (column_cells c').
Proof.
  destruct c as [cells|cells|cells|cells|cells]; simpl;
    destruct (cells_take cells l) as [r|e] eqn:Hr; simpl; try done;
    intros [= <-]; apply cells_take_Ok in Hr; simpl;
    apply Forall2_fmap_r; (eapply Forall2_impl; [exact Hr|]);
    intros i x Hi; simpl; by rewrite list_lookup_fmap, Hi.
Qed.

Lemma column_take_length (c : column) l c' :
  column_take c l = Ok c' -> column_length c' = length l.
Proof.
  intros H. apply column_take_Ok in H. unfold column_length.
  symmetry. by eapply Forall2_length.
Qed.

Lemma table_take_Ok (t : Table) l taken :
  table_take t l = Ok taken ->
  Forall2 (fun nc nc' : string * column =>
             fst nc' = fst nc /\ column_take (snd nc) l = Ok (snd nc'))
    (columns t) (columns taken)
  /\ num_rows taken = match columns taken with [] => 0 | _ => length l end.
Proof.
  unfold table_take.
  destruct (result_mapM _ (columns t)) as [cols|e] eqn:H; simpl; [|done].
  intros [= <-]. simpl. split.
  - apply result_mapM_Forall2 in H.
    eapply Forall2_impl; [exact H|]. intros [k c] [k' c'] Hc. simpl in *.
    destruct (column_take c l) as [c''|e]; [|done]. simpl in Hc.
    by injection Hc as <- <-.
  - destruct cols as [|[k c] cols]; [done|].
    apply result_mapM_Forall2 in H.
    destruct (columns t) as [|[k0 c0] cols0]; [by inversion H|].
    apply Forall2_cons in H as [H _]. simpl in H.
    destruct (column_take c0 l) as [c''|e] eqn:Hc; [|done]. simpl in H.
    injection H as _ <-. by apply column_take_length in Hc.
Qed.

Lemma position_cells (l : list nat) :
  column_cells (Int64Column (map (fun i => Some (Z.of_nat i)) l))
  = map (fun i => Some (VInt (Z.of_nat i))) l.
Proof. simpl. by rewrite map_map. Qed.

Lemma bucket_table_Ok (t : Table) l tb :
  bucket_table ordered_record_idx_column_name t l = Ok tb ->
  exists taken,
    table_take t l = Ok taken
    /\ num_rows taken = length l
    /\ tb = mkTable (length l)
              (columns taken
                 ++ [(ordered_record_idx_column_name,
                      Int64Column (map (fun i => Some (Z.of_nat i)) l))]).
Proof.
  unfold bucket_table.
  destruct (table_take t l) as [taken|e] eqn:Htake; simpl; [|done].
  intros [-> Hlen]%append_column_Ok. exists taken.
  unfold column_length in Hlen. rewrite position_cells, length_map in Hlen.
  by rewrite <- Hlen.
Qed.

Lemma bucket_table_rows t l tb :
  bucket_table ordered_record_idx_column_name t l = Ok tb ->
  num_rows tb = length l
  /\ record_positions tb = map (fun i => Some (VInt (Z.of_nat i))) l.
Proof.
  intros (taken & _ & _ & ->)%bucket_table_Ok. split; [done|].
  unfold record_positions. simpl. rewrite last_snoc. apply position_cells.
Qed.

(** *** The table handed to the collaborator *)

Lemma hash_pk_bytes_generator_nonempty cols tr digests :
  hash_pk_bytes_generator cols = (tr, Ok digests) -> cols <> [].
Proof. by destruct cols. Qed.

Lemma in_flight_table table pks dcol t1 t2 :
  equal_row_counts table = true ->
  append_column table pk_hash_column_name dcol = Ok t1 ->
  table_drop t1 pks = Ok t2 ->
  num_rows t2 = num_rows table /\ equal_row_counts t2 = true.
Proof.
  intros Heq [-> Hlen]%append_column_Ok [Hrows Hsub]%table_drop_rows.
  simpl in *. split; [done|].
  apply equal_row_counts_Forall. rewrite Hrows.
  apply Forall_forall. intros nc Hin.
  apply (sublist_subseteq _ _ Hsub) in Hin.
  apply elem_of_app in Hin as [Hin|Hin%list_elem_of_singleton].
  - apply equal_row_counts_Forall in Heq. rewrite Forall_forall in Heq.
    by apply Heq.
  - by subst.
Qed.

(** *** Sums over slots *)

Lemma sum_list_with_lookup_ext {A B} (g : A -> nat) (g' : B -> nat) l l' :
  (forall b, from_option g 0 (l !! b) = from_option g' 0 (l' !! b)) ->
  sum_list_with g l = sum_list_with g' l'.
Proof.
  revert l'. induction l as [|x l IH]; intros l' H.
  - induction l' as [|y l' IH']; [done|].
    pose proof (H 0) as H0. simpl in H0. simpl.
    rewrite <- IH'; [simpl; lia|]. intros b. apply (H (S b)).
  - destruct l' as [|y l'].
    + pose proof (H 0) as H0. simpl in H0. simpl.
      rewrite (IH []); [simpl; lia|]. intros b. apply (H (S b)).
    + pose proof (H 0) as H0. simpl in H0. simpl.
      rewrite (IH l'); [lia|]. intros b. apply (H (S b)).
Qed.

Lemma length_concat_default (idx : list (option (list nat))) :
  length (concat (map (default []) idx))
  = sum_list_with (fun o => length (default [] o)) idx.
Proof.
  induction idx as [|o idx IH]; simpl; [done|].
  by rewrite length_app, IH.
Qed.

(** The slots of the returned array and the index lists of the
    collaborator have the same row counts. *)
Lemma partition_rows
  (table : Table) (num_buckets : Z) (primary_keys : list string) tr out :
  equal_row_counts table = true ->
  returns_partition grouping num_buckets ->
  group_by table num_buckets primary_keys = (tr, Ok out) ->
  sum_list_with slot_rows out = num_rows table.
Proof.
  intros Heq Hpart Hrun.
  apply group_by_Ok_inv in Hrun
    as (cols & digests & t1 & t2 & idx & Hcols & Hgen & Happ & Hdrop & Hidx
        & Hn & Hlen & Hout).
  destruct (in_flight_table _ _ _ _ _ Heq Happ Hdrop) as (Hrows & Heq2).
  specialize (Hpart t2 idx Heq2 Hidx).
  apply Permutation_length in Hpart.
  rewrite length_seq, Hrows, length_concat_default in Hpart.
  rewrite <- Hpart. apply sum_list_with_lookup_ext. intros b.
  specialize (Hout b). unfold truthy_indices in Hout.
  destruct (idx !! b) as [[[|i rest]|]|] eqn:Hb; simpl.
  - rewrite Hout. by destruct (replicate _ _ !! b) as [x|] eqn:Hr;
      [apply lookup_replicate in Hr as [-> _]|].
  - destruct Hout as (tb & Htb & ->). simpl.
    by apply bucket_table_rows in Htb as [-> _].
  - rewrite Hout. by destruct (replicate _ _ !! b) as [x|] eqn:Hr;
      [apply lookup_replicate in Hr as [-> _]|].
  - rewrite Hout. by destruct (replicate _ _ !! b) as [x|] eqn:Hr;
      [apply lookup_replicate in Hr as [-> _]|].
Qed.

(** C6. On a table of equal row counts whose key names do not include the
    digest column's name, and with a collaborator that returns a partition
    of the row positions, the row counts of the bucket tables the
    partitioner returns add up to the row count of the table. *)
Theorem group_by_pk_hash_bucket_row_conservation
  (table : Table) (num_buckets : Z) (primary_keys : list string) tr out :
  equal_row_counts table = true ->
  pk_hash_column_name ∉ primary_keys ->
  returns_partition grouping num_buckets ->
  group_by table num_buckets primary_keys = (tr, Ok out) ->
  sum_list_with slot_rows out = num_rows table.
Proof. intros Heq _. by apply partition_rows. Qed.

(** *** Every row is recorded in a bucket *)

Lemma elem_of_concat_default (idx : list (option (list nat))) i :
  i ∈ concat (map (default []) idx) ->
  exists b l, idx !! b = Some (Some l) /\ i ∈ l.
Proof.
  induction idx as [|o idx IH]; simpl; [by intros ?%elem_of_nil|].
  intros [Hi|Hi]%elem_of_app.
  - destruct o as [l|]; [|by apply elem_of_nil in Hi]. by exists 0, l.
  - destruct (IH Hi) as (b & l & Hb & Hl). by exists (S b), l.
Qed.

Lemma partition_row_bucket
  (table : Table) (num_buckets : Z) (primary_keys : list string) tr out i :
  equal_row_counts table = true ->
  returns_partition grouping num_buckets ->
  group_by table num_buckets primary_keys = (tr, Ok out) ->
  i < num_rows table ->
  exists b, row_in_bucket out b i.
Proof.
  intros Heq Hpart Hrun Hi.
  apply group_by_Ok_inv in Hrun
    as (cols & digests & t1 & t2 & idx & Hcols & Hgen & Happ & Hdrop & Hidx
        & Hn & Hlen & Hout).
  destruct (in_flight_table _ _ _ _ _ Heq Happ Hdrop) as (Hrows & Heq2).
  specialize (Hpart t2 idx Heq2 Hidx).
  assert (Hin : i ∈ concat (map (default []) idx)).
  { rewrite Hpart. apply elem_of_seq. lia. }
  apply elem_of_concat_default in Hin as (b & l & Hb & Hl).
  exists b. specialize (Hout b). rewrite Hb in Hout.
  destruct l as [|x rest]; [by apply elem_of_nil in Hl|]. simpl in Hout.
  destruct Hout as (tb & Htb & Htbout).
  exists tb. split; [done|].
  apply bucket_table_rows in Htb as [_ ->].
  change (Some (VInt (Z.of_nat i))
          ∈ (fun j => Some (VInt (Z.of_nat j))) <$> (x :: rest)).
  apply list_elem_of_fmap. by exists i.
Qed.

Lemma table_getitem_elem_of t k c :
  table_getitem t k = Ok c -> (k, c) ∈ columns t.
Proof.
  unfold table_getitem.
  destruct (filter _ (columns t)) as [|[k' c'] [|? ?]] eqn:Hf; try done.
  intros [= <-].
  assert (Hin : (k', c') ∈ filter (fun nc : string * column => fst nc = k)
                             (columns t))
    by (rewrite Hf; apply list_elem_of_here).
  apply list_elem_of_filter in Hin as [Hk Hin]. simpl in Hk. by subst.
Qed.

Lemma table_cell_row t k i x :
  equal_row_counts t = true -> table_cell t k i = Some x -> i < num_rows t.
Proof.
  intros Heq. unfold table_cell.
  destruct (table_getitem t k) as [c|e] eqn:Hc; [|done].
  intros Hx%lookup_lt_Some.
  apply table_getitem_elem_of in Hc.
  apply equal_row_counts_Forall in Heq. rewrite Forall_forall in Heq.
  apply Heq in Hc. unfold column_length in Hc. simpl in Hc. lia.
Qed.

Lemma key_columns_lengths t pks cols :
  equal_row_counts t = true ->
  key_columns t pks = Ok cols ->
  Forall (fun c => length c = num_rows t) cols.
Proof.
  intros Heq H. apply result_mapM_Forall2 in H.
  apply equal_row_counts_Forall in Heq. rewrite Forall_forall in Heq.
  induction H as [|k vs pks cols Hk _ IH]; constructor; [|done].
  destruct (table_getitem t k) as [c|e] eqn:Hc; [|done]. simpl in Hk.
  injection Hk as <-. rewrite to_numpy_length.
  by apply table_getitem_elem_of, Heq in Hc.
Qed.

(** The trace of a partitioner that returns: one digest per row. *)
Lemma partitioner_trace
  (table : Table) (num_buckets : Z) (primary_keys : list string) tr out :
  equal_row_counts table = true ->
  group_by table num_buckets primary_keys = (tr, Ok out) ->
  exists inputs,
    tr = map EvDigest inputs /\ length inputs = num_rows table.
Proof.
  intros Heq Hrun.
  apply group_by_Ok_inv in Hrun
    as (cols & digests & t1 & t2 & idx & Hcols & Hgen & _).
  pose proof (hash_pk_bytes_generator_nonempty _ _ _ Hgen) as Hne.
  pose proof (key_columns_lengths _ _ _ Heq Hcols) as Hlens.
  rewrite (hash_pk_bytes_generator_rows cols (num_rows table)) in Hgen by done.
  apply mapM_M_row_digest_trace in Hgen as (inputs & -> & _ & Hlen).
  exists inputs. split; [done|].
  by rewrite Hlen, (rows_of_length cols (num_rows table)).
Qed.

(** C2. A null in a primary-key column does not fail the partitioner:
    when the partitioner returns, with a collaborator that returns a
    partition of the row positions, it has computed a digest for the row
    of the null and has recorded that row in a bucket, like every other
    row. *)
Theorem group_by_pk_hash_bucket_null_key
  (table : Table) (num_buckets : Z) (primary_keys : list string)
  tr out k i :
  equal_row_counts table = true ->
  returns_partition grouping num_buckets ->
  group_by table num_buckets primary_keys = (tr, Ok out) ->
  k ∈ primary_keys ->
  table_cell table k i = Some None ->
  (exists input, tr !! i = Some (EvDigest input))
  /\ exists b, row_in_bucket out b i.
Proof.
  intros Heq Hpart Hrun _ Hnull.
  pose proof (table_cell_row _ _ _ _ Heq Hnull) as Hi. split.
  - destruct (partitioner_trace _ _ _ _ _ Heq Hrun) as (inputs & -> & Hlen).
    destruct (lookup_lt_is_Some_2 inputs i) as [input Hinput]; [lia|].
    exists input. by rewrite list_lookup_fmap, Hinput.
  - by eapply partition_row_bucket.
Qed.

End Partitioner.

(** ** The grouping collaborator of the specification *)

Section Grouping.

Variable pk_hash_column_name : string.

Local Abbreviation grouping :=
  (primary_key_index.group_record_indices_by_hash_bucket pk_hash_column_name).
Local Abbreviation bucket_index :=
  primary_key_index.pk_digest_to_hash_bucket_index.

Lemma grouping_Ok_inv t n idx :
  grouping t n = Ok idx ->
  exists col digests,
    table_getitem t pk_hash_column_name = Ok col
    /\ primary_key_index.column_digests col = Ok digests
    /\ idx = map (fun b =>
               Some (filter (fun i =>
                       (fun d => bucket_index d n) <$> digests !! i
                       = Some (Z.of_nat b))
                     (seq 0 (length digests))))
             (seq 0 (Z.to_nat n)).
Proof.
  unfold primary_key_index.group_record_indices_by_hash_bucket.
  destruct (table_getitem t pk_hash_column_name) as [col|e]; [|done].
  unfold result_bind at 1.
  destruct (primary_key_index.column_digests col) as [digests|e]
    eqn:Hds; [|done].
  intros [= <-]. by exists col, digests.
Qed.

Lemma column_digests_length col digests :
  primary_key_index.column_digests col = Ok digests ->
  length digests = column_length col.
Proof.
  destruct col as [cells|cells|cells|cells|cells]; try done. simpl.
  intros H%result_mapM_length. unfold column_length. simpl.
  by rewrite length_map.
Qed.

Lemma bucket_index_range d n :
  (0 < n)%Z -> (0 <= bucket_index d n < n)%Z.
Proof.
  intros Hn. unfold primary_key_index.pk_digest_to_hash_bucket_index.
  by apply Z.mod_pos_bound.
Qed.
(** *** The index lists partition the row positions *)

Lemma filter_nil_Forall {A} (P : A -> Prop) `{!forall x, Decision (P x)} l :
  Forall (fun x => ~ P x) l -> filter P l = [].
Proof.
  induction 1 as [|x l Hx _ IH]; [done|].
  rewrite filter_cons. by destruct (decide (P x)).
Qed.

Lemma filter_all_Forall {A} (P : A -> Prop) `{!forall x, Decision (P x)} l :
  Forall P l -> filter P l = l.
Proof.
  induction 1 as [|x l Hx _ IH]; [done|].
  rewrite filter_cons. destruct (decide (P x)); [|done]. by rewrite IH.
Qed.

Lemma filter_ext_Forall {A} (P Q : A -> Prop)
  `{!forall x, Decision (P x)} `{!forall x, Decision (Q x)} l :
  Forall (fun x => P x <-> Q x) l -> filter P l = filter Q l.
Proof.
  induction 1 as [|x l Hx _ IH]; [done|].
  rewrite !filter_cons, IH.
  destruct (decide (P x)), (decide (Q x)); tauto.
Qed.

Lemma filter_lt_succ {A} (f : A -> nat) l N :
  filter (fun x => f x < N) l ++ filter (fun x => f x = N) l
  ≡ₚ filter (fun x => f x < S N) l.
Proof.
  induction l as [|x l IH]; [done|].
  rewrite !filter_cons.
  destruct (decide (f x < N)), (decide (f x = N)), (decide (f x < S N));
    try lia; simpl.
  - by rewrite IH.
  - by rewrite <- Permutation_middle, IH.
  - done.
Qed.

Lemma concat_buckets {A} (f : A -> nat) l N :
  concat (map (fun b => filter (fun x => f x = b) l) (seq 0 N))
  ≡ₚ filter (fun x => f x < N) l.
Proof.
  induction N as [|N IH].
  - simpl. rewrite filter_nil_Forall; [done|].
    apply Forall_forall. intros; lia.
  - rewrite seq_S, map_app, concat_app, IH. simpl. rewrite app_nil_r.
    apply filter_lt_succ.
Qed.

Lemma grouping_returns_partition n :
  (0 < n)%Z -> returns_partition grouping n.
Proof.
  intros Hn t idx Heq Hidx.
  apply grouping_Ok_inv in Hidx as (col & digests & Hcol & Hds & ->).
  assert (Hlen : length digests = num_rows t).
  { apply column_digests_length in Hds. rewrite Hds.
    apply table_getitem_elem_of in Hcol.
    apply equal_row_counts_Forall in Heq. rewrite Forall_forall in Heq.
    by apply Heq in Hcol. }
  rewrite map_map. simpl. rewrite <- Hlen.
  set (f := fun i =>
    Z.to_nat (default 0%Z ((fun d => bucket_index d n) <$> digests !! i))).
  rewrite (map_ext _ (fun b =>
             filter (fun i => f i = b) (seq 0 (length digests)))).
  - rewrite concat_buckets. rewrite filter_all_Forall; [done|].
    apply Forall_forall. intros i Hi%elem_of_seq. unfold f.
    destruct (lookup_lt_is_Some_2 digests i) as [d Hd]; [lia|].
    rewrite Hd. simpl. pose proof (bucket_index_range d n Hn). lia.
  - intros b. apply filter_ext_Forall.
    apply Forall_forall. intros i Hi%elem_of_seq. unfold f.
    destruct (lookup_lt_is_Some_2 digests i) as [d Hd]; [lia|].
    rewrite Hd. simpl. pose proof (bucket_index_range d n Hn).
    split; [intros [= ->]; lia | intros <-; f_equal; lia].
Qed.

End Grouping.



(** ** The partitioner: keys that are not there *)

Lemma table_getitem_Err t k e : table_getitem t k = Err e -> e = InvalidSchema.
Proof.
  unfold table_getitem.
  destruct (filter _ (columns t)) as [|[? ?] [|? ?]]; by intros [= <-].
Qed.

Lemma key_columns_missing (t : Table) (primary_keys : list string) :
  existsb (fun k => negb (has_column t k)) primary_keys = true ->
  key_columns t primary_keys = Err InvalidSchema.
Proof.
  unfold key_columns, has_column.
  induction primary_keys as [|k ks IH]; simpl; [done|].
  destruct (table_getitem t k) as [c|e] eqn:Hk; simpl.
  - intros Hex. by rewrite IH.
  - intros _. by apply table_getitem_Err in Hk as ->.
Qed.

(** X5. When one of the key names is not a column of the table (or names
    more than one), the partitioner fails with the [KeyError] of the column
    lookup, before any digest is computed, with or without nulls in the
    key columns. *)
Theorem group_by_pk_hash_bucket_missing_key
  (pk_hash_column_name ordered_record_idx_column_name : string)
  (grouping : Table -> Z -> result (list (option (list nat))))
  (table : Table) (num_buckets : Z) (primary_keys : list string) :
  existsb (fun k => negb (has_column table k)) primary_keys = true ->
  group_by_pk_hash_bucket pk_hash_column_name ordered_record_idx_column_name
    grouping table num_buckets primary_keys
  = ([], Err InvalidSchema).
Proof.
  intros Hmissing. unfold group_by_pk_hash_bucket.
  rewrite key_columns_loop, (key_columns_missing _ _ Hmissing).
  reflexivity.
Qed.

(** ** The partitioner: what a returned array guarantees *)

Lemma key_columns_Ok_checks t pks cols :
  key_columns t pks = Ok cols -> forallb (has_column t) pks = true.
Proof.
  unfold key_columns, has_column. revert cols.
  induction pks as [|k ks IH]; intros cols; simpl; [done|].
  destruct (table_getitem t k) as [c|e]; simpl; [|done].
  destruct (result_mapM _ ks) as [cols'|e]; simpl; [|done].
  intros _. by rewrite (IH cols').
Qed.

Lemma slot_of_bucket_inv
  ordered_record_idx_column_name t2 (idx : list (option (list nat)))
  (out : list (option Table)) num_buckets b tb :
  match truthy_indices (idx !! b) with
  | Some l => exists tb,
      bucket_table ordered_record_idx_column_name t2 l = Ok tb
      /\ out !! b = Some (Some tb)
  | None => out !! b = replicate (Z.to_nat num_buckets) None !! b
  end ->
  out !! b = Some (Some tb) ->
  exists i rest,
    idx !! b = Some (Some (i :: rest))
    /\ bucket_table ordered_record_idx_column_name t2 (i :: rest) = Ok tb.
Proof.
  intros Hout Hb. unfold truthy_indices in Hout.
  destruct (idx !! b) as [[[|i rest]|]|] eqn:Hidx.
  - rewrite Hb in Hout. symmetry in Hout.
    by apply lookup_replicate in Hout as [? _].
  - destruct Hout as (tb' & Htb & Hb'). rewrite Hb in Hb'.
    injection Hb' as <-. by exists i, rest.
  - rewrite Hb in Hout. symmetry in Hout.
    by apply lookup_replicate in Hout as [? _].
  - rewrite Hb in Hout. symmetry in Hout.
    by apply lookup_replicate in Hout as [? _].
Qed.

(** X6. Whatever the collaborator, an array returned by the partitioner
    has exactly [num_buckets] slots, [num_buckets] is not negative, every
    table in a slot has at least one row, and the call had a non-empty list
    of primary keys, each of them a column of the table. *)
Theorem group_by_pk_hash_bucket_returned_array
  (pk_hash_column_name ordered_record_idx_column_name : string)
  (grouping : Table -> Z -> result (list (option (list nat))))
  (table : Table) (num_buckets : Z) (primary_keys : list string) tr out :
  group_by_pk_hash_bucket pk_hash_column_name ordered_record_idx_column_name
    grouping table num_buckets primary_keys = (tr, Ok out) ->
  (0 <= num_buckets)%Z
  /\ length out = Z.to_nat num_buckets
  /\ (forall b tb, out !! b = Some (Some tb) -> 0 < num_rows tb)
  /\ primary_keys <> []
  /\ forallb (has_column table) primary_keys = true.
Proof.
  intros Hrun.
  apply group_by_Ok_inv in Hrun
    as (cols & digests & t1 & t2 & idx & Hcols & Hgen & Happ & Hdrop & Hidx
        & Hn & Hlen & Hout).
  split; [done|]. split; [done|]. split.
  { intros b tb Hb.
    destruct (slot_of_bucket_inv _ _ _ _ _ _ _ (Hout b) Hb)
      as (i & rest & _ & Htb).
    apply bucket_table_rows in Htb as [-> _]. simpl. lia. }
  split.
  { intros ->. apply hash_pk_bytes_generator_nonempty in Hgen.
    by injection Hcols as <-. }
  by apply key_columns_Ok_checks in Hcols.
Qed.

(** ** The partitioner: its trace *)

(** X9. A partitioner that returns has done no download and has computed
    exactly one digest per row of the table, in row order. *)
Theorem group_by_pk_hash_bucket_one_digest_per_row
  (pk_hash_column_name ordered_record_idx_column_name : string)
  (grouping : Table -> Z -> result (list (option (list nat))))
  (table : Table) (num_buckets : Z) (primary_keys : list string) tr out :
  equal_row_counts table = true ->
  group_by_pk_hash_bucket pk_hash_column_name ordered_record_idx_column_name
    grouping table num_buckets primary_keys = (tr, Ok out) ->
  exists inputs,
    tr = map EvDigest inputs /\ length inputs = num_rows table.
Proof. apply partitioner_trace. Qed.

(** ** The partitioner: tables without rows and arrays without slots *)

Section RowCounts.

Variable pk_hash_column_name : string.
Variable ordered_record_idx_column_name : string.
Variable grouping : Table -> Z -> result (list (option (list nat))).

Local Abbreviation group_by :=
  (group_by_pk_hash_bucket pk_hash_column_name ordered_record_idx_column_name
     grouping).

Lemma sum_list_with_Forall_zero {A} (f : A -> nat) l :
  sum_list_with f l = 0 -> Forall (fun x => f x = 0) l.
Proof.
  induction l as [|x l IH]; simpl; [done|].
  intros H. constructor; [lia|]. apply IH. lia.
Qed.

(** X16. With a collaborator that returns a partition, the partitioner
    returns only absent slots for a table without rows. *)
Theorem group_by_pk_hash_bucket_empty_table
  (table : Table) (num_buckets : Z) (primary_keys : list string) tr out :
  equal_row_counts table = true ->
  pk_hash_column_name ∉ primary_keys ->
  returns_partition grouping num_buckets ->
  group_by table num_buckets primary_keys = (tr, Ok out) ->
  num_rows table = 0 ->
  tr = [] /\ out = replicate (Z.to_nat num_buckets) None.
Proof.
  intros Heq _ Hpart Hrun Hrows.
  pose proof (partition_rows _ _ _ _ _ _ _ _ Heq Hpart Hrun) as Hsum.
  rewrite Hrows in Hsum. apply sum_list_with_Forall_zero in Hsum.
  split.
  - destruct (partitioner_trace _ _ _ _ _ _ _ _ Heq Hrun)
      as (inputs & -> & Hlen).
    rewrite Hrows in Hlen. by apply nil_length_inv in Hlen as ->.
  - apply group_by_Ok_inv in Hrun
      as (cols & digests & t1 & t2 & idx & Hcols & Hgen & _ & _ & _
          & _ & Hlen & Hout).
    apply list_eq. intros b.
    destruct (out !! b) as [[tb|]|] eqn:Hb.
    + exfalso. rewrite Forall_forall in Hsum.
      specialize (Hsum (Some tb) (list_elem_of_lookup_2 _ _ _ Hb)).
      simpl in Hsum.
      destruct (slot_of_bucket_inv _ _ _ _ _ _ _ (Hout b) Hb)
        as (i & rest & _ & Htb).
      apply bucket_table_rows in Htb as [Hr _]. simpl in Hr. lia.
    + symmetry. apply lookup_replicate_2. apply lookup_lt_Some in Hb. lia.
    + symmetry. apply lookup_ge_None_2. rewrite length_replicate.
      apply lookup_ge_None_1 in Hb. lia.
Qed.

(** X17. With a collaborator that returns a partition, the partitioner
    cannot return for zero buckets unless the table has no rows. *)
Theorem group_by_pk_hash_bucket_zero_buckets
  (table : Table) (primary_keys : list string) tr out :
  equal_row_counts table = true ->
  pk_hash_column_name ∉ primary_keys ->
  returns_partition grouping 0 ->
  group_by table 0 primary_keys = (tr, Ok out) ->
  num_rows table = 0 /\ out = [].
Proof.
  intros Heq _ Hpart Hrun.
  pose proof (partition_rows _ _ _ _ _ _ _ _ Heq Hpart Hrun) as Hsum.
  apply group_by_Ok_inv in Hrun
    as (_ & _ & _ & _ & _ & _ & _ & _ & _ & _ & _ & Hlen & _).
  apply nil_length_inv in Hlen as ->. simpl in Hsum. done.
Qed.

End RowCounts.

(** ** The partitioner: the columns that are dropped *)

(** Deleting the positions of a list one after the other. *)
Lemma remove_columns_deletes t ds t' :
  remove_columns t ds = Ok t' ->
  columns t' = foldl (fun l i => delete i l) (columns t) ds.
Proof.
  revert t. induction ds as [|d ds IH]; intros t.
  - by intros [= <-].
  - rewrite remove_columns_cons.
    destruct (remove_column t d) as [t1|e] eqn:H1; simpl; [|done].
    intros H. apply IH in H as ->.
    by apply remove_column_Ok in H1 as [_ ->].
Qed.

Lemma delete_app_l {A} (l1 l2 : list A) i :
  i < length l1 -> delete i (l1 ++ l2) = delete i l1 ++ l2.
Proof.
  revert i. induction l1 as [|x l1 IH]; intros i Hi; simpl in *; [lia|].
  destruct i as [|i]; [done|]. simpl. f_equal. apply IH. lia.
Qed.

Lemma deletes_app {A} (ds : list nat) (l1 l2 : list A) :
  StronglySorted gt ds ->
  Forall (fun d => d < length l1) ds ->
  foldl (fun l i => delete i l) (l1 ++ l2) ds
  = foldl (fun l i => delete i l) l1 ds ++ l2.
Proof.
  intros Hsorted. revert l1.
  induction Hsorted as [|d ds Hds IH Hd]; intros l1 Hlt; simpl; [done|].
  apply Forall_cons in Hlt as [Hdlt Hlt].
  rewrite delete_app_l by done. apply IH.
  rewrite Forall_forall in Hd. apply Forall_forall. intros j Hj.
  specialize (Hd j Hj). rewrite length_delete by (by apply lookup_lt_is_Some_2).
  lia.
Qed.

(** Deleting, from the last to the first, the positions of the elements
    that satisfy [P] leaves the elements that do not. *)
Lemma deletes_filter {A} (P : A -> Prop) `{!forall x, Decision (P x)}
  (ds : list nat) (l : list A) :
  StronglySorted gt ds ->
  (forall j, j ∈ ds <-> exists x, l !! j = Some x /\ P x) ->
  foldl (fun l i => delete i l) l ds = filter (fun x => ~ P x) l.
Proof.
  intros Hsorted. revert l.
  induction Hsorted as [|d ds Hds IH Hd]; intros l Hpos; simpl.
  - symmetry. apply filter_all_Forall, Forall_forall. intros x Hx HP.
    apply list_elem_of_lookup in Hx as [j Hj].
    assert (Hin : j ∈ []) by (apply Hpos; by exists x).
    by apply elem_of_nil in Hin.
  - destruct (proj1 (Hpos d) (list_elem_of_here _ _)) as (x & Hx & HPx).
    rewrite Forall_forall in Hd.
    rewrite delete_take_drop.
    rewrite deletes_app; [|done|].
    2:{ apply Forall_forall. intros j Hj. specialize (Hd j Hj).
        rewrite length_take. apply lookup_lt_Some in Hx. lia. }
    rewrite (IH (take d l)).
    2:{ intros j. split.
        - intros Hj. specialize (Hd j Hj).
          destruct (proj1 (Hpos j) (list_elem_of_further _ _ _ Hj))
            as (y & Hy & HPy).
          exists y. split; [|done]. by rewrite lookup_take_lt by lia.
        - intros (y & Hy & HPy).
          apply lookup_take_Some in Hy as [Hy Hjd].
          assert (Hin : j ∈ d :: ds) by (apply Hpos; by exists y).
          apply elem_of_cons in Hin as [->|Hin]; [lia|done]. }
    rewrite <- (take_drop_middle l d x Hx) at 3.
    rewrite filter_app, filter_cons.
    destruct (decide (~ P x)) as [Hn|_]; [done|]. f_equal.
    symmetry. apply filter_all_Forall, Forall_forall. intros y Hy HPy.
    apply list_elem_of_lookup in Hy as [j Hj]. rewrite lookup_drop in Hj.
    assert (Hin : S d + j ∈ d :: ds) by (apply Hpos; by exists y).
    apply elem_of_cons in Hin as [Heq|Hin]; [lia|].
    specialize (Hd _ Hin). lia.
Qed.

Lemma get_field_index_Some t name i :
  get_field_index t name = Some i ->
  fst <$> columns t !! i = Some name
  /\ forall j, fst <$> columns t !! j = Some name -> j = i.
Proof.
  unfold get_field_index.
  destruct (filter _ (seq 0 (length (columns t)))) as [|i' [|? ?]] eqn:Hf;
    try done.
  intros [= ->].
  assert (Hi : forall j, j ∈ filter (fun i => fst <$> columns t !! i = Some name)
                            (seq 0 (length (columns t))) <-> j = i).
  { intros j. rewrite Hf. apply list_elem_of_singleton. }
  split.
  - pose proof (proj2 (Hi i) eq_refl) as H0.
    by apply list_elem_of_filter in H0 as [? _].
  - intros j Hj. apply Hi. apply list_elem_of_filter. split; [done|].
    apply elem_of_seq. destruct (columns t !! j) eqn:Hl; [|done].
    apply lookup_lt_Some in Hl. lia.
Qed.

Lemma NoDup_Forall2_inj {A B} (R : A -> B -> Prop) l k :
  (forall x x' y, R x y -> R x' y -> x = x') ->
  Forall2 R l k -> NoDup l -> NoDup k.
Proof.
  intros Hinj H. induction H as [|x y l k Hxy H IH]; [constructor|].
  intros [Hx Hl]%NoDup_cons. apply NoDup_cons. split; [|by apply IH].
  intros Hy. apply Hx.
  apply list_elem_of_lookup in Hy as [j Hj].
  destruct (Forall2_lookup_r _ _ _ _ _ H Hj) as (x' & Hx' & Hx'y).
  rewrite (Hinj x x' y Hxy Hx'y). by apply list_elem_of_lookup_2 in Hx'.
Qed.

Lemma StronglySorted_ge_gt (ds : list nat) :
  StronglySorted (flip le) ds -> NoDup ds -> StronglySorted gt ds.
Proof.
  induction 1 as [|d ds Hds IH Hd]; [constructor|].
  intros [Hnin Hnd]%NoDup_cons. constructor; [by apply IH|].
  rewrite Forall_forall in Hd. apply Forall_forall. intros j Hj.
  specialize (Hd j Hj). unfold flip in Hd.
  assert (j <> d) by (intros ->; done). lia.
Qed.

(** With key names that are listed once each, [table.drop] removes the
    columns the names name and no other. *)
Lemma table_drop_NoDup t names t' :
  NoDup names ->
  table_drop t names = Ok t' ->
  columns t' = filter (fun nc : string * column => fst nc ∉ names) (columns t).
Proof.
  intros Hnd (indices & Hidx & Hrm)%table_drop_Ok.
  apply remove_columns_deletes in Hrm as ->.
  apply result_mapM_Forall2 in Hidx.
  assert (Hget : Forall2 (fun name i => get_field_index t name = Some i)
                   names indices).
  { eapply Forall2_impl; [exact Hidx|]. intros name i H. simpl in H.
    destruct (get_field_index t name); [|done]. by injection H as ->. }
  clear Hidx.
  assert (Hndi : NoDup indices).
  { eapply NoDup_Forall2_inj; [|exact Hget|exact Hnd].
    intros x x' i [Hx _]%get_field_index_Some [Hx' _]%get_field_index_Some.
    rewrite Hx in Hx'. by injection Hx'. }
  set (ds := reverse (merge_sort le indices)).
  assert (Hperm : ds ≡ₚ indices).
  { unfold ds. by rewrite reverse_Permutation, merge_sort_Permutation. }
  apply (deletes_filter (fun nc : string * column => fst nc ∈ names)).
  - apply StronglySorted_ge_gt; [|by rewrite Hperm].
    apply Sorted_StronglySorted; [intros x y z; unfold flip; lia|].
    apply Sorted_reverse, Sorted_merge_sort. intros x y. lia.
  - intros j. rewrite Hperm. split.
    + intros Hj. apply list_elem_of_lookup in Hj as [p Hp].
      destruct (Forall2_lookup_r _ _ _ _ _ Hget Hp) as (name & Hname & Hg).
      apply get_field_index_Some in Hg as [Hg _].
      destruct (columns t !! j) as [nc|] eqn:Hnc; [|done].
      exists nc. split; [done|]. simpl in Hg. injection Hg as ->.
      by apply list_elem_of_lookup_2 in Hname.
    + intros (nc & Hnc & Hin).
      apply list_elem_of_lookup in Hin as [p Hp].
      destruct (Forall2_lookup_l _ _ _ _ _ Hget Hp) as (i & Hi & Hg).
      apply get_field_index_Some in Hg as [_ Huniq].
      rewrite (Huniq j); [by apply list_elem_of_lookup_2 in Hi|].
      by rewrite Hnc.
Qed.


Lemma map_fst_filter_names (pks : list string) (cols : list (string * column)) :
  map fst (filter (fun nc : string * column => fst nc ∉ pks) cols)
  = filter (fun k => k ∉ pks) (map fst cols).
Proof.
  induction cols as [|[k c] cols IH]; [done|].
  rewrite filter_cons. simpl. rewrite filter_cons.
  destruct (decide (k ∉ pks)); simpl; by rewrite IH.
Qed.

Lemma taken_names (l : list nat) (cols taken : list (string * column)) :
  Forall2 (fun nc nc' : string * column =>
             fst nc' = fst nc /\ column_take (snd nc) l = Ok (snd nc'))
    cols taken ->
  map fst taken = map fst cols.
Proof.
  induction 1 as [|nc nc' cols taken [Hk _] _ IH]; simpl; [done|].
  by rewrite Hk, IH.
Qed.

(** X7. When no key name is listed twice, the columns of every bucket
    table are, in this order: the columns of the partitioned table that
    are not primary keys, the digest column and the column of the record
    positions. *)
Theorem group_by_pk_hash_bucket_bucket_columns
  (pk_hash_column_name ordered_record_idx_column_name : string)
  (grouping : Table -> Z -> result (list (option (list nat))))
  (table : Table) (num_buckets : Z) (primary_keys : list string) tr out b tb :
  NoDup primary_keys ->
  group_by_pk_hash_bucket pk_hash_column_name ordered_record_idx_column_name
    grouping table num_buckets primary_keys = (tr, Ok out) ->
  out !! b = Some (Some tb) ->
  map fst (columns tb)
  = filter (fun k => k ∉ primary_keys)
      (map fst (columns table) ++ [pk_hash_column_name])
    ++ [ordered_record_idx_column_name].
Proof.
  intros Hnd Hrun Hb.
  apply group_by_Ok_inv in Hrun
    as (cols & digests & t1 & t2 & idx & Hcols & Hgen & Happ & Hdrop & Hidx
        & Hn & Hlen & Hout).
  apply append_column_Ok in Happ as [-> _].
  apply table_drop_NoDup in Hdrop; [|done]. simpl in Hdrop.
  destruct (slot_of_bucket_inv _ _ _ _ _ _ _ (Hout b) Hb)
    as (i & rest & _ & Htb).
  apply bucket_table_Ok in Htb as (taken & Htake & _ & ->).
  simpl. rewrite map_app. simpl. f_equal.
  apply table_take_Ok in Htake as [Htake _]. rewrite Hdrop in Htake.
  replace (map fst (columns table) ++ [pk_hash_column_name])
    with (map fst (columns table
                     ++ [(pk_hash_column_name,
                          BinaryColumn (map Some digests))]))
    by (by rewrite map_app).
  rewrite <- map_fst_filter_names. by eapply taken_names.
Qed.

(** X8. When no key name is listed twice, the record positions of every
    bucket table lead back to the partitioned table: the table lists at
    least one position, and each column of the partitioned table that is
    not a primary key is a column of the bucket table that holds, row by
    row, the cell at the recorded position. *)
Theorem group_by_pk_hash_bucket_positions
  (pk_hash_column_name ordered_record_idx_column_name : string)
  (grouping : Table -> Z -> result (list (option (list nat))))
  (table : Table) (num_buckets : Z) (primary_keys : list string) tr out b tb :
  NoDup primary_keys ->
  group_by_pk_hash_bucket pk_hash_column_name ordered_record_idx_column_name
    grouping table num_buckets primary_keys = (tr, Ok out) ->
  out !! b = Some (Some tb) ->
  exists positions,
    positions <> []
    /\ record_positions tb
       = map (fun i => Some (VInt (Z.of_nat i))) positions
    /\ forall k c,
         (k, c) ∈ columns table -> k ∉ primary_keys ->
         exists c', (k, c') ∈ columns tb
                    /\ Forall2 (fun i x => column_cells c !! i = Some x)
                         positions (column_cells c').
Proof.
  intros Hnd Hrun Hb.
  apply group_by_Ok_inv in Hrun
    as (cols & digests & t1 & t2 & idx & Hcols & Hgen & Happ & Hdrop & Hidx
        & Hn & Hlen & Hout).
  apply append_column_Ok in Happ as [-> _].
  apply table_drop_NoDup in Hdrop; [|done]. simpl in Hdrop.
  destruct (slot_of_bucket_inv _ _ _ _ _ _ _ (Hout b) Hb)
    as (i & rest & _ & Htb).
  exists (i :: rest). split; [done|].
  pose proof (bucket_table_rows _ _ _ _ Htb) as [_ Hpos]. split; [done|].
  intros k c Hin Hk.
  apply bucket_table_Ok in Htb as (taken & Htake & _ & ->).
  apply table_take_Ok in Htake as [Htake _]. rewrite Hdrop in Htake.
  assert (Hin2 : (k, c) ∈ filter (fun nc : string * column =>
                                    fst nc ∉ primary_keys)
                         (columns table
                            ++ [(pk_hash_column_name,
                                 BinaryColumn (map Some digests))])).
  { apply list_elem_of_filter. split; [done|]. apply elem_of_app. by left. }
  apply list_elem_of_lookup_1 in Hin2 as [j Hj].
  destruct (Forall2_lookup_l _ _ _ _ _ Htake Hj) as ([k' c'] & Hj' & Hk' & Hc').
  simpl in *. subst k'. exists c'. split.
  - apply elem_of_app. left. by apply list_elem_of_lookup_2 in Hj'.
  - by apply column_take_Ok.
Qed.

(** ** Equal keys in different buckets *)

(** C5. The key 1 of an [int64] column is digested as the text [1] when
    its column has no null and as the text [1.0] when the column has a
    null elsewhere: with four buckets the partitioner records the row of
    the first table in bucket 3 and the row of equal key of the second
    table in bucket 1, and in no common bucket. *)
Theorem equal_keys_different_buckets :
  table_cell Sample.table_one "pk" 0 = table_cell Sample.table_one_null "pk" 0
  /\ group_by_pk_hash_bucket Sample.pk_hash Sample.record_idx Sample.grouping
       Sample.table_one 4 ["pk"%string]
     = (fst SampleRuns.run_one, Ok (snd SampleRuns.run_one))
  /\ group_by_pk_hash_bucket Sample.pk_hash Sample.record_idx Sample.grouping
       Sample.table_one_null 4 ["pk"%string]
     = (fst SampleRuns.run_one_null, Ok (snd SampleRuns.run_one_null))
  /\ fst SampleRuns.run_one = [EvDigest (list_byte_of_string "1")]
  /\ fst SampleRuns.run_one_null
     = [EvDigest (list_byte_of_string "1.0");
        EvDigest (list_byte_of_string "nan")]
  /\ row_in_bucket (snd SampleRuns.run_one) 3 0
  /\ row_in_bucket (snd SampleRuns.run_one_null) 1 0
  /\ ~ exists b, row_in_bucket (snd SampleRuns.run_one) b 0
                 /\ row_in_bucket (snd SampleRuns.run_one_null) b 0.
Proof.
  split; [reflexivity|]. split; [vm_compute; reflexivity|].
  split; [vm_compute; reflexivity|]. split; [reflexivity|].
  split; [reflexivity|]. split.
  { eexists. split; [reflexivity|]. vm_compute. apply list_elem_of_here. }
  split.
  { eexists. split; [reflexivity|]. vm_compute. apply list_elem_of_here. }
  intros (b & (t1 & Hb1 & Hin1) & (t2 & Hb2 & Hin2)).
  destruct b as [|[|[|[|b]]]]; vm_compute in Hb1; vm_compute in Hb2;
    discriminate.
Qed.

(** ** The digest depends on the strings of the values only *)

Lemma getitem_map {A B} (f : A -> B) (l : list A) i :
  getitem (map f l) i = (x <- getitem l i ;; ret (f x)).
Proof.
  unfold getitem. change (map f l) with (f <$> l).
  rewrite list_lookup_fmap. by destruct (l !! i).
Qed.

Lemma for_each_map {A B S} (f : A -> B) (xs : list A)
  (body : B -> S -> M S) s :
  for_each (map f xs) body s = for_each xs (fun x => body (f x)) s.
Proof.
  revert s. induction xs as [|x xs IH]; intros s; simpl; [done|].
  by apply bind_ext.
Qed.

Lemma hash_pk_bytes_generator_strings (cols : list (list value)) :
  hash_pk_bytes_generator cols = digest_strings (map (map str) cols).
Proof.
  unfold hash_pk_bytes_generator, digest_strings.
  rewrite getitem_map, bind_assoc. apply bind_ext. intros first.
  rewrite bind_ret_l, length_map. apply for_each_ext. intros i yielded.
  f_equal. rewrite for_each_map. apply for_each_ext. intros col acc.
  rewrite getitem_map, bind_assoc. apply bind_ext. intros v.
  by rewrite bind_ret_l.
Qed.

(** C10. Two lists of key columns whose values have the same strings,
    position by position, have the same digests: the digest function gives
    the same result on both, and so any mapping of digests to buckets gives
    the same buckets, for any number of buckets. *)
Theorem digest_depends_on_strings_only (cols1 cols2 : list (list value)) :
  map (map str) cols1 = map (map str) cols2 ->
  hash_pk_bytes_generator cols1 = hash_pk_bytes_generator cols2
  /\ forall (bucket_of : bytes -> Z -> Z) tr1 ds1 tr2 ds2 num_buckets,
       hash_pk_bytes_generator cols1 = (tr1, Ok ds1) ->
       hash_pk_bytes_generator cols2 = (tr2, Ok ds2) ->
       map (fun d => bucket_of d num_buckets) ds1
       = map (fun d => bucket_of d num_buckets) ds2.
Proof.
  intros Hstr.
  assert (Heq : hash_pk_bytes_generator cols1 = hash_pk_bytes_generator cols2)
    by (by rewrite !hash_pk_bytes_generator_strings, Hstr).
  split; [done|]. intros bucket_of tr1 ds1 tr2 ds2 n H1 H2. congruence.
Qed.

Lemma digest_depends_on_strings_only_witness :
  map (map str) [[VInt 1; VBool true]]
  = map (map str) [[Sample.s "1"; Sample.s "True"]]
  /\ hash_pk_bytes_generator [[VInt 1; VBool true]]
     = hash_pk_bytes_generator [[Sample.s "1"; Sample.s "True"]].
Proof.
  split; [reflexivity|].
  apply (digest_depends_on_strings_only
           [[VInt 1; VBool true]] [[Sample.s "1"; Sample.s "True"]]).
  reflexivity.
Defined.

(** ** The digest function: columns of unequal length *)

Lemma hash_pk_bytes_generator_digest_at
  (first : list value) (others : list (list value)) :
  hash_pk_bytes_generator (first :: others)
  = mapM_M (digest_at (first :: others)) (seq 0 (length first)).
Proof.
  unfold hash_pk_bytes_generator.
  change (getitem (first :: others) 0) with (@ret (list value) first).
  rewrite bind_ret_l, <- for_each_collect. apply for_each_ext.
  intros i yielded. unfold digest_at.
  rewrite encode_row_loop, !bind_assoc.
  apply bind_ext. intros encoded. rewrite !bind_assoc.
  apply bind_ext. intros _. by rewrite bind_ret_l.
Qed.

Lemma mapM_M_Ok_each {A B} (g : A -> M B) xs tr ys :
  mapM_M g xs = (tr, Ok ys) ->
  length ys = length xs
  /\ Forall (fun x => exists tr' y, g x = (tr', Ok y)) xs.
Proof.
  revert tr ys. induction xs as [|x xs IH]; intros tr ys; simpl.
  - intros H. apply ret_Ok_inv in H as [-> _]. done.
  - intros H. apply bind_Ok_inv in H as (tr1 & y & tr2 & Hx & H & ->).
    apply bind_Ok_inv in H as (tr3 & ys' & tr4 & Hxs & H & ->).
    apply ret_Ok_inv in H as [-> _].
    apply IH in Hxs as [Hlen Hall]. split; [simpl; by rewrite Hlen|].
    constructor; [by eexists _, _|done].
Qed.

(** X10. When the digest function returns, it has yielded one digest per
    value of the first column, and no column is shorter than the first. *)
Theorem hash_pk_bytes_generator_returned
  (first : list value) (others : list (list value)) tr digests :
  hash_pk_bytes_generator (first :: others) = (tr, Ok digests) ->
  length digests = length first
  /\ Forall (fun c => length first <= length c) (first :: others).
Proof.
  rewrite hash_pk_bytes_generator_digest_at. intros H.
  apply mapM_M_Ok_each in H as [Hlen Hall].
  rewrite length_seq in Hlen. split; [done|].
  destruct (length first) as [|n] eqn:Hn.
  { apply Forall_forall. intros; lia. }
  rewrite Forall_forall in Hall.
  destruct (Hall n) as (tr' & d & Hd); [apply elem_of_seq; lia|].
  unfold digest_at in Hd.
  apply bind_Ok_inv in Hd as (tr1 & encoded & tr2 & Henc & _).
  apply mapM_M_Ok_each in Henc as [_ Hcols].
  eapply Forall_impl; [exact Hcols|]. intros c (tr3 & b & Hc). simpl in Hc.
  apply bind_Ok_inv in Hc as (tr4 & v & tr5 & Hv & _).
  unfold getitem in Hv. destruct (c !! n) as [v'|] eqn:Hcn; [|done].
  apply lookup_lt_Some in Hcn. lia.
Qed.

Lemma mapM_M_ext_in {A B} (g h : A -> M B) xs :
  Forall (fun x => g x = h x) xs -> mapM_M g xs = mapM_M h xs.
Proof.
  induction 1 as [|x xs Hx _ IH]; simpl; [done|]. by rewrite Hx, IH.
Qed.

Lemma mapM_M_map {A B C} (f : A -> B) (g : B -> M C) xs :
  mapM_M g (map f xs) = mapM_M (fun x => g (f x)) xs.
Proof. induction xs as [|x xs IH]; simpl; [done|]. by rewrite IH. Qed.

(** X11. The digest function reads each column only up to the length of
    the first: the values that other columns hold beyond it change neither
    the digests nor the failure. *)
Theorem hash_pk_bytes_generator_ignores_overhang
  (first : list value) (others : list (list value)) :
  hash_pk_bytes_generator (first :: others)
  = hash_pk_bytes_generator
      (first :: map (take (length first)) others).
Proof.
  rewrite !hash_pk_bytes_generator_digest_at.
  apply mapM_M_ext_in, Forall_forall. intros i Hi%elem_of_seq.
  unfold digest_at. f_equal. cbn [mapM_M].
  rewrite mapM_M_map.
  rewrite (mapM_M_ext_in
             (fun c => v <- getitem (take (length first) c) i ;;
                       lift (utf8_encode (str v)))
             (fun c => v <- getitem c i ;; lift (utf8_encode (str v)))).
  - done.
  - apply Forall_forall. intros c _. unfold getitem.
    by rewrite lookup_take_lt by lia.
Qed.
(** ** The digest function: the delimiter is not escaped *)

Lemma result_mapM_app {A B} (f : A -> result B) (l1 l2 : list A) :
  result_mapM f (l1 ++ l2)
  = result_bind (result_mapM f l1) (fun ys1 =>
    result_bind (result_mapM f l2) (fun ys2 => Ok (ys1 ++ ys2))).
Proof.
  induction l1 as [|x l1 IH]; simpl.
  - by destruct (result_mapM f l2).
  - destruct (f x) as [y|e]; simpl; [|done]. rewrite IH.
    destruct (result_mapM f l1) as [ys1|e]; simpl; [|done].
    by destruct (result_mapM f l2).
Qed.

Lemma utf8_encode_app (s t : pystr) :
  utf8_encode (s ++ t)
  = result_bind (utf8_encode s) (fun bs =>
    result_bind (utf8_encode t) (fun bt => Ok (bs ++ bt))).
Proof.
  unfold utf8_encode. rewrite result_mapM_app.
  destruct (result_mapM utf8_encode_char s) as [ys1|e]; simpl; [|done].
  destruct (result_mapM utf8_encode_char t) as [ys2|e]; simpl; [|done].
  by rewrite concat_app.
Qed.

Lemma utf8_encode_delimiter_text :
  utf8_encode delimiter_text = Ok _PK_BYTES_DELIMITER.
Proof. reflexivity. Qed.

(** X12. The delimiter is not escaped in the values, so distinct key
    tuples can have the same digests: for all strings [a], [b] and [c],
    the two-column keys ([a] delimiter [b], [c]) and ([a], [b] delimiter
    [c]) differ and are digested alike. *)
Theorem hash_pk_bytes_generator_delimiter_collision (a b c : pystr) :
  [VStr (a ++ delimiter_text ++ b); VStr c]
  <> [VStr a; VStr (b ++ delimiter_text ++ c)]
  /\ hash_pk_bytes_generator [[VStr (a ++ delimiter_text ++ b)]; [VStr c]]
     = hash_pk_bytes_generator [[VStr a]; [VStr (b ++ delimiter_text ++ c)]].
Proof.
  split.
  { intros [= H _]. apply (f_equal length) in H.
    rewrite !length_app in H. simpl in H. lia. }
  rewrite !generator_yields_row_digests by (by repeat constructor).
  cbn [rows_of map zip_with mapM_M]. f_equal.
  unfold joined_row_digest. cbn [result_mapM str].
  rewrite !utf8_encode_app, utf8_encode_delimiter_text.
  destruct (utf8_encode a) as [ea|e]; simpl; [|done].
  destruct (utf8_encode b) as [eb|e]; simpl; [|done].
  destruct (utf8_encode c) as [ec|e]; simpl; [|done].
  rewrite !bind_lift_Ok. cbn [bytes_join].
  by rewrite <- !app_assoc.
Qed.

(** ** The partitioner: a null key and the key [None] *)

Section MapColumns.

Variable f : string -> column -> column.









End MapColumns.






(** ** The partitioner: a key name listed twice *)




(** ** The properties on the sample inputs *)

Lemma read_delta_file_envelopes_length_mismatch_witness :
  [Sample.manifest_short] <> []
  /\ (forall kwargs,
        download_delta_manifest Sample.storage Sample.manifest_short kwargs
        = Ok [Sample.table_a])
  /\ length [Sample.table_a] <> length (get_annotations Sample.manifest_short)
  /\ read_delta_file_envelopes Sample.kwargs_key [Sample.manifest_short]
       SampleMore.names ["pk"%string] ["sk"%string] Sample.storage
     = ([], Err TypeError)
  /\ forall tables annotations,
       assert_lengths_match tables annotations = ret tt.
Proof.
  split; [discriminate|]. split; [reflexivity|]. split; [simpl; lia|].
  apply (read_delta_file_envelopes_length_mismatch Sample.kwargs_key
           [Sample.manifest_short] SampleMore.names ["pk"%string]
           ["sk"%string] Sample.storage).
  discriminate.
Defined.

Lemma group_by_pk_hash_bucket_null_key_witness :
  equal_row_counts Sample.table_null = true
  /\ group_by_pk_hash_bucket Sample.pk_hash Sample.record_idx Sample.grouping
       Sample.table_null 4 ["pk"%string]
     = (fst SampleRuns.run_null, Ok (snd SampleRuns.run_null))
  /\ table_cell Sample.table_null "pk" 1 = Some None
  /\ fst SampleRuns.run_null
     = [EvDigest (list_byte_of_string "a");
        EvDigest (list_byte_of_string "None")]
  /\ row_in_bucket (snd SampleRuns.run_null) 3 1
  /\ (exists input, fst SampleRuns.run_null !! 1 = Some (EvDigest input))
  /\ exists b, row_in_bucket (snd SampleRuns.run_null) b 1.
Proof.
  split; [reflexivity|]. split; [vm_compute; reflexivity|].
  split; [reflexivity|]. split; [reflexivity|]. split.
  { eexists. split; [reflexivity|]. vm_compute. apply list_elem_of_here. }
  apply (group_by_pk_hash_bucket_null_key Sample.pk_hash Sample.record_idx
           Sample.grouping Sample.table_null 4 ["pk"%string]
           (fst SampleRuns.run_null) (snd SampleRuns.run_null) "pk"%string 1).
  - reflexivity.
  - apply grouping_returns_partition. lia.
  - vm_compute. reflexivity.
  - apply list_elem_of_here.
  - reflexivity.
Defined.

Lemma hash_pk_bytes_generator_row_digests_witness :
  Forall (fun c => length c = length [VInt 1; VFloat (Float64.of_int 1); VNone])
    [[Sample.s "x"; VBool true; VBytes [x61]]]
  /\ exists digests,
       hash_pk_bytes_generator
         [[VInt 1; VFloat (Float64.of_int 1); VNone];
          [Sample.s "x"; VBool true; VBytes [x61]]]
       = (map EvDigest (map list_byte_of_string
            ["1L6kl7u5fx"; "1.0L6kl7u5fTrue"; "NoneL6kl7u5fb'a'"]%string),
          Ok digests)
       /\ map hexlify digests
          = ["cea4969f217e6e562982d78510fbf6b0b9c56d0e";
             "c9e5c28381f27c48d86503d7e1c4b9c633f3fd27";
             "3b016598bb79c982b4d81eb3fb941d272c7f9cc7"]%string.
Proof.
  split; [by repeat constructor|].
  rewrite (hash_pk_bytes_generator_row_digests
             [VInt 1; VFloat (Float64.of_int 1); VNone]
             [[Sample.s "x"; VBool true; VBytes [x61]]])
    by (by repeat constructor).
  eexists. split; vm_compute; reflexivity.
Defined.

Lemma sample_pk_hash_reserved : Sample.pk_hash ∉ ["pk"%string].
Proof. intros H%list_elem_of_singleton. discriminate. Qed.

Lemma group_by_pk_hash_bucket_row_conservation_witness :
  equal_row_counts Sample.table_a = true
  /\ (Sample.pk_hash ∉ ["pk"%string])
  /\ group_by_pk_hash_bucket Sample.pk_hash Sample.record_idx Sample.grouping
       Sample.table_a 3 ["pk"%string]
     = (fst SampleRuns.run_a, Ok (snd SampleRuns.run_a))
  /\ sum_list_with slot_rows (snd SampleRuns.run_a) = num_rows Sample.table_a.
Proof.
  split; [reflexivity|]. split; [exact sample_pk_hash_reserved|].
  split; [vm_compute; reflexivity|].
  apply (group_by_pk_hash_bucket_row_conservation Sample.pk_hash
           Sample.record_idx Sample.grouping Sample.table_a 3 ["pk"%string]
           (fst SampleRuns.run_a) (snd SampleRuns.run_a)).
  - reflexivity.
  - exact sample_pk_hash_reserved.
  - apply grouping_returns_partition. lia.
  - vm_compute. reflexivity.
Defined.

Lemma group_file_records_by_pk_hash_bucket_no_slots_witness :
  [Sample.manifest_a; Sample.manifest_b] <> []
  /\ group_file_records_by_pk_hash_bucket Sample.pk_hash Sample.record_idx
       Sample.kwargs_key Sample.grouping
       [Sample.manifest_a; Sample.manifest_b] 3 SampleMore.names
       ["pk"%string] ["sk"%string] Sample.storage
     = ([], Err TypeError).
Proof.
  split; [discriminate|].
  apply (group_file_records_by_pk_hash_bucket_no_slots Sample.pk_hash
           Sample.record_idx Sample.kwargs_key Sample.grouping
           [Sample.manifest_a; Sample.manifest_b] 3 SampleMore.names
           ["pk"%string] ["sk"%string] Sample.storage).
  discriminate.
Defined.

(** ** The further properties on the sample inputs *)

Lemma group_by_pk_hash_bucket_missing_key_witness :
  existsb (fun k => negb (has_column Sample.table_null k)) ["pk"; "zz"]%string
  = true
  /\ group_by_pk_hash_bucket Sample.pk_hash Sample.record_idx Sample.grouping
       Sample.table_null 3 ["pk"; "zz"]%string
     = ([], Err InvalidSchema).
Proof.
  split; [reflexivity|].
  apply (group_by_pk_hash_bucket_missing_key Sample.pk_hash Sample.record_idx
           Sample.grouping Sample.table_null 3 ["pk"; "zz"]%string).
  reflexivity.
Defined.

Lemma group_by_pk_hash_bucket_returned_array_witness :
  (0 <= 3)%Z
  /\ length (snd SampleRuns.run_a) = Z.to_nat 3
  /\ (forall b tb,
        snd SampleRuns.run_a !! b = Some (Some tb) -> 0 < num_rows tb)
  /\ ["pk"%string] <> []
  /\ forallb (has_column Sample.table_a) ["pk"%string] = true.
Proof.
  apply (group_by_pk_hash_bucket_returned_array Sample.pk_hash
           Sample.record_idx Sample.grouping Sample.table_a 3 ["pk"%string]
           (fst SampleRuns.run_a) (snd SampleRuns.run_a)).
  vm_compute. reflexivity.
Defined.

Lemma group_by_pk_hash_bucket_bucket_columns_witness :
  NoDup ["pk"%string]
  /\ map fst (columns SampleMore.bucket_a1)
     = filter (fun k => k ∉ ["pk"%string])
         (map fst (columns Sample.table_a) ++ [Sample.pk_hash])
       ++ [Sample.record_idx].
Proof.
  split; [apply NoDup_singleton|].
  apply (group_by_pk_hash_bucket_bucket_columns Sample.pk_hash
           Sample.record_idx Sample.grouping Sample.table_a 3 ["pk"%string]
           (fst SampleRuns.run_a) (snd SampleRuns.run_a) 1
           SampleMore.bucket_a1).
  - apply NoDup_singleton.
  - vm_compute. reflexivity.
  - reflexivity.
Defined.

Lemma group_by_pk_hash_bucket_positions_witness :
  exists positions,
    positions <> []
    /\ record_positions SampleMore.bucket_a1
       = map (fun i => Some (VInt (Z.of_nat i))) positions
    /\ forall k c,
         (k, c) ∈ columns Sample.table_a -> k ∉ ["pk"%string] ->
         exists c', (k, c') ∈ columns SampleMore.bucket_a1
                    /\ Forall2 (fun i x => column_cells c !! i = Some x)
                         positions (column_cells c').
Proof.
  apply (group_by_pk_hash_bucket_positions Sample.pk_hash
           Sample.record_idx Sample.grouping Sample.table_a 3 ["pk"%string]
           (fst SampleRuns.run_a) (snd SampleRuns.run_a) 1
           SampleMore.bucket_a1).
  - apply NoDup_singleton.
  - vm_compute. reflexivity.
  - reflexivity.
Defined.

Lemma group_by_pk_hash_bucket_one_digest_per_row_witness :
  exists inputs,
    fst SampleRuns.run_a = map EvDigest inputs
    /\ length inputs = num_rows Sample.table_a.
Proof.
  apply (group_by_pk_hash_bucket_one_digest_per_row Sample.pk_hash
           Sample.record_idx Sample.grouping Sample.table_a 3 ["pk"%string]
           (fst SampleRuns.run_a) (snd SampleRuns.run_a)).
  - reflexivity.
  - vm_compute. reflexivity.
Defined.

Lemma hash_pk_bytes_generator_returned_witness :
  length (snd SampleMore.ragged_run) = length [VInt 1; VInt 2]
  /\ Forall (fun c => length [VInt 1; VInt 2] <= length c)
       SampleMore.ragged_columns.
Proof.
  apply (hash_pk_bytes_generator_returned [VInt 1; VInt 2]
           [[Sample.s "x"; Sample.s "y"; Sample.s "z"]]
           (fst SampleMore.ragged_run) (snd SampleMore.ragged_run)).
  vm_compute. reflexivity.
Defined.

Lemma hash_bucket_failure_sources_witness :
  ([Sample.manifest_a] <> [] /\ ([] : list event) = [] /\ TypeError = TypeError)
  \/ ([Sample.manifest_a] = []
      /\ Sample.assembler None (-1) 1 = ([], Err TypeError)).
Proof.
  apply (hash_bucket_failure_sources Sample.pk_hash Sample.record_idx
           Sample.kwargs_key Sample.grouping unit Sample.assembler
           [Sample.manifest_a] SampleMore.names ["pk"%string]
           [("sk", "asc")]%string (-1) 1 Sample.storage [] TypeError).
  reflexivity.
Defined.

Lemma group_by_pk_hash_bucket_empty_table_witness :
  num_rows SampleMore.table_empty = 0
  /\ group_by_pk_hash_bucket Sample.pk_hash Sample.record_idx Sample.grouping
       SampleMore.table_empty 3 ["pk"%string]
     = ([], Ok [None; None; None])
  /\ ([] : list event) = []
  /\ [None; None; None] = replicate (Z.to_nat 3) (None : option Table).
Proof.
  split; [reflexivity|]. split; [reflexivity|].
  apply (group_by_pk_hash_bucket_empty_table Sample.pk_hash Sample.record_idx
           Sample.grouping SampleMore.table_empty 3 ["pk"%string]
           [] [None; None; None]).
  - reflexivity.
  - exact sample_pk_hash_reserved.
  - apply grouping_returns_partition. lia.
  - reflexivity.
  - reflexivity.
Defined.

Lemma strict_grouping_returns_partition_zero :
  returns_partition SampleMore.strict_grouping 0.
Proof.
  intros t idx _. unfold SampleMore.strict_grouping. simpl.
  destruct (num_rows t =? 0) eqn:Hr; [|done].
  intros [= <-]. apply Nat.eqb_eq in Hr. rewrite Hr. done.
Qed.

Lemma group_by_pk_hash_bucket_zero_buckets_witness :
  group_by_pk_hash_bucket Sample.pk_hash Sample.record_idx
    SampleMore.strict_grouping SampleMore.table_empty 0 ["pk"%string]
  = ([], Ok [])
  /\ num_rows SampleMore.table_empty = 0
  /\ ([] : list (option Table)) = [].
Proof.
  split; [reflexivity|].
  apply (group_by_pk_hash_bucket_zero_buckets Sample.pk_hash Sample.record_idx
           SampleMore.strict_grouping SampleMore.table_empty ["pk"%string]
           [] []).
  - reflexivity.
  - exact sample_pk_hash_reserved.
  - exact strict_grouping_returns_partition_zero.
  - reflexivity.
Defined.


